(** * githubProjectTUI: error classification, retry executor and view state machine

    A shallow embedding of the Go packages [internal/errors] (types.go,
    the classifier and the retry executor), [internal/config] and the
    message handlers of [internal/ui/model.go], with the properties the
    specification states about them.

    Conventions.
    - Go [int] and [time.Duration] are integers [Z]; a duration counts
      nanoseconds in a signed 64-bit word and products wrap ([wrap64]).
    - A Go [string] is a byte sequence: Rocq's [string].
    - The interface type [error] is [option goerror]; [None] is [nil].
    - A Go map is a [gmap]; a possibly nil map an [option (gmap _ _)]. *)

From Stdlib Require Import ZArith Bool List Ascii String Lia.
From stdpp Require Import base option gmap strings.
Import ListNotations.

Local Open Scope string_scope.
Local Open Scope Z_scope.

(** ** Strings: the two functions of Go's [strings] package the code uses *)

Module Strings.

(** [strings.Contains(s, substr)]: [substr] occurs in [s], bytewise. *)
Fixpoint Contains (s substr : string) : bool :=
  if String.prefix substr s then true
  else match s with
       | EmptyString => false
       | String _ rest => Contains rest substr
       end.

(** ASCII case mapping: bytes 'A'..'Z' are moved to 'a'..'z'. *)
Definition lower_byte (c : ascii) : ascii :=
  let n := nat_of_ascii c in
  if ((65 <=? n)%nat && (n <=? 90)%nat)%bool then ascii_of_nat (n + 32) else c.

(** [strings.ToLower] on messages made of ASCII bytes.  Go maps every
    Unicode upper-case letter; that table is part of Go's library, so
    the classifier below takes the lowering function as an argument and
    this one is its instance for ASCII text. *)
Fixpoint ascii_ToLower (s : string) : string :=
  match s with
  | EmptyString => EmptyString
  | String c rest => String (lower_byte c) (ascii_ToLower rest)
  end.

(** [strings.Join(elems, sep)]. *)
Fixpoint Join (elems : list string) (sep : string) : string :=
  match elems with
  | [] => ""
  | [x] => x
  | x :: rest => x +:+ sep +:+ Join rest sep
  end.

End Strings.

(** ** Durations *)

Definition Nanosecond : Z := 1.
Definition Millisecond : Z := 1000000.
Definition Second : Z := 1000000000.

(** Two's complement wrap-around of a signed 64-bit word. *)
Definition wrap64 (x : Z) : Z := (x + 2 ^ 63) mod 2 ^ 64 - 2 ^ 63.

(** ** internal/errors/types.go *)

Inductive ErrorType : Set :=
| ErrorTypeUnknown
| ErrorTypeRetryable
| ErrorTypePermission
| ErrorTypeValidation
| ErrorTypeRateLimit
| ErrorTypeConflict.

Global Instance ErrorType_eq_dec : EqDecision ErrorType.
Proof. solve_decision. Defined.

Definition ErrorType_String (t : ErrorType) : string :=
  match t with
  | ErrorTypeRetryable => "retryable"
  | ErrorTypePermission => "permission"
  | ErrorTypeValidation => "validation"
  | ErrorTypeRateLimit => "rate_limit"
  | ErrorTypeConflict => "conflict"
  | _ => "unknown"
  end.

(** The struct [APIError], over the type [E] of the error it wraps. *)
Record APIError_ (E : Type) : Type := mkAPIError {
  Type' : ErrorType;
  Message : string;
  OriginalErr : option E;
  Retryable : bool;
  RetryAfter : Z;
  HTTPStatus : Z;
  GraphQLType : string;
  FieldErrors : option (gmap string string)
}.
Arguments mkAPIError {E}.
Arguments Type' {E}.
Arguments Message {E}.
Arguments OriginalErr {E}.
Arguments Retryable {E}.
Arguments RetryAfter {E}.
Arguments HTTPStatus {E}.
Arguments GraphQLType {E}.
Arguments FieldErrors {E}.

(** The dynamic values of the interface [error] the program builds: a
    [*APIError], or an error of another type ([errors.New], [fmt.Errorf],
    with the error it wraps through [%w], if any).  The pointer in an
    [ApiError] is never nil: an interface that holds a nil [*APIError], on
    which [Error], [IsRetryableError] and [GetRetryAfter] dereference nil,
    is not among these values. *)
#[warnings="-register-all"]
Inductive goerror : Type :=
| PlainError (msg : string) (cause : option goerror)
| ApiError (a : APIError_ goerror).

Abbreviation APIError := (APIError_ goerror).
Abbreviation error := (option goerror).

(** [err.Error()]. *)
Definition Error (e : goerror) : string :=
  match e with
  | PlainError msg _ => msg
  | ApiError a => Message a
  end.

Definition IsRetryable (e : APIError) : bool := Retryable e.

Definition RetryableError (message : string) (err : error) : APIError :=
  mkAPIError ErrorTypeRetryable message err true 0 0 "" None.

Definition PermissionError (message : string) (err : error) : APIError :=
  mkAPIError ErrorTypePermission message err false 0 0 "" None.

Definition ValidationError (message : string)
    (fieldErrors : option (gmap string string)) : APIError :=
  mkAPIError ErrorTypeValidation message None false 0 0 "" fieldErrors.

Definition RateLimitError (message : string) (retryAfter : Z) : APIError :=
  mkAPIError ErrorTypeRateLimit message None true retryAfter 0 "" None.

Definition ConflictError (message : string) (err : error) : APIError :=
  mkAPIError ErrorTypeConflict message err false 0 0 "" None.

(** ** The classifier *)

Definition StatusBadRequest : Z := 400.
Definition StatusUnauthorized : Z := 401.
Definition StatusForbidden : Z := 403.
Definition StatusConflict : Z := 409.
Definition StatusTooManyRequests : Z := 429.

Import Strings.

Definition extractRetryAfter (errMsg : string) : Z :=
  if Contains errMsg "60" then 60 * Second
  else 60 * Second.

Section Classifier.

(** [strings.ToLower]. *)
Variable ToLower : string -> string.

Definition extractFieldErrors (errMsg : string) : gmap string string :=
  let fieldErrors : gmap string string := ∅ in
  let fieldErrors :=
    if Contains (ToLower errMsg) "user" && Contains (ToLower errMsg) "not found"
    then <["assignee" := "User not found"]> fieldErrors
    else fieldErrors in
  let fieldErrors :=
    if Contains (ToLower errMsg) "title"
    then <["title" := "Invalid title"]> fieldErrors
    else fieldErrors in
  fieldErrors.

Definition ClassifyError (err : error) (httpStatus : Z) : option APIError :=
  match err with
  | None => None
  | Some e =>
    let errMsg := Error e in
    let errLower := ToLower errMsg in
    if (httpStatus =? StatusTooManyRequests)
       || Contains errLower "rate limit"
       || Contains errLower "rate_limited"
    then
      let retryAfter := extractRetryAfter errMsg in
      Some (RateLimitError "GitHub API rate limit exceeded" retryAfter)
    else if (httpStatus =? StatusForbidden)
       || (httpStatus =? StatusUnauthorized)
       || Contains errLower "not authorized"
       || Contains errLower "permission denied"
       || Contains errLower "forbidden"
       || Contains errLower "does not have access"
    then Some (PermissionError "Permission denied" err)
    else if (httpStatus =? StatusBadRequest)
       || Contains errLower "invalid"
       || Contains errLower "validation"
       || (Contains errLower "not found" && Contains errLower "user")
    then
      let fieldErrors := extractFieldErrors errMsg in
      Some (ValidationError errMsg (Some fieldErrors))
    else if (httpStatus =? StatusConflict)
       || Contains errLower "conflict"
       || Contains errLower "concurrent"
    then Some (ConflictError "Resource conflict" err)
    else if Contains errLower "timeout"
       || Contains errLower "connection"
       || Contains errLower "network"
       || Contains errLower "temporary"
       || (httpStatus >=? 500)
    then Some (RetryableError errMsg err)
    else Some (mkAPIError ErrorTypeUnknown errMsg err false 0 httpStatus "" None)
  end.

End Classifier.

Definition IsRetryableError (err : error) : bool :=
  match err with
  | Some (ApiError apiErr) => IsRetryable apiErr
  | _ => false
  end.

Definition GetRetryAfter (err : error) : Z :=
  match err with
  | Some (ApiError apiErr) => RetryAfter apiErr
  | _ => 0
  end.

(** *** The rule list of the specification

    The specification describes the classifier as an ordered list of
    rules, the first matching one deciding the kind.  [spec_rules] is
    that list, written from the specification's text; [spec_kind] is the
    first-match reading of it.  The theorems compare it with
    [ClassifyError]. *)

Record rule : Type := mkRule {
  rule_kind : ErrorType;
  rule_matches : string -> Z -> bool   (* lowered message, status *)
}.

Definition spec_rules : list rule := [
  mkRule ErrorTypeRateLimit (fun m s =>
    (s =? 429) || Contains m "rate limit" || Contains m "rate_limited");
  mkRule ErrorTypePermission (fun m s =>
    (s =? 401) || (s =? 403) || Contains m "not authorized"
    || Contains m "permission denied" || Contains m "forbidden"
    || Contains m "does not have access");
  mkRule ErrorTypeValidation (fun m s =>
    (s =? 400) || Contains m "invalid" || Contains m "validation"
    || (Contains m "not found" && Contains m "user"));
  mkRule ErrorTypeConflict (fun m s =>
    (s =? 409) || Contains m "conflict" || Contains m "concurrent");
  mkRule ErrorTypeRetryable (fun m s =>
    Contains m "timeout" || Contains m "connection" || Contains m "network"
    || Contains m "temporary" || (s >=? 500))
].

Fixpoint first_match (rules : list rule) (m : string) (s : Z) : ErrorType :=
  match rules with
  | [] => ErrorTypeUnknown
  | r :: rest => if rule_matches r m s then rule_kind r else first_match rest m s
  end.

Definition spec_kind (m : string) (s : Z) : ErrorType := first_match spec_rules m s.

(** The retryable kinds of the specification: RateLimit and Transient. *)
Definition retryable_kind (t : ErrorType) : bool :=
  match t with
  | ErrorTypeRateLimit | ErrorTypeRetryable => true
  | _ => false
  end.

(** ** The retry executor *)

Record RetryConfig : Type := mkRetryConfig {
  MaxAttempts : Z;
  BaseDelay : Z;
  MaxDelay : Z;
  Jitter : bool;
  OnRetry : bool   (* whether a callback is installed (non-nil) *)
}.

Definition DefaultRetryConfig : RetryConfig :=
  mkRetryConfig 5 (1 * Second) (16 * Second) true true.

(** What a run of the executor does to the outside, in order. *)
Inductive log_line : Type :=
| LogSucceeded (attempt : Z)
| LogNonRetryable (err : goerror)
| LogExhausted (maxAttempts : Z)
| LogCancelled
| LogCancelledDuringWait.

Inductive event : Type :=
| EvInvoke                                        (* fn() *)
| EvStderr (line : log_line)                      (* fmt.Fprintf(os.Stderr, ...) *)
| EvOnRetry (attempt : Z) (err : goerror) (delay : Z)
| EvSleep (delay : Z)                             (* time.Sleep(delay) *)
| EvWait (delay : Z) (cancelled : bool).          (* select on timer and cancel *)

Record exec_state : Type := mkExec {
  calls : nat;          (* invocations of fn so far *)
  draws : nat;          (* random numbers drawn so far *)
  trace : list event
}.

Definition emit (ev : event) (st : exec_state) : exec_state :=
  mkExec (calls st) (draws st) (trace st ++ [ev]).

(** A Go function either returns or panics. *)
Inductive outcome (A : Type) : Type :=
| Returned (a : A)
| Panicked.
Arguments Returned {A}.
Arguments Panicked {A}.

Section Executor.

(** The operation: its result at its k-th invocation (counted from 0).
    A closure with state of its own is such a function. *)
Variable fn : nat -> error.

(** The random source behind [rand.Int63n]: the i-th raw draw. *)
Variable rand_raw : nat -> Z.

(** [time.Duration(math.Pow(2, float64(k)))] for an exponent outside
    0..62, where the conversion of the float is left to the platform. *)
Variable pow_out_of_range : Z -> Z.

(** [rand.Int63n(n)]: a number in [0, n); it panics when [n <= 0]. *)
Definition Int63n (n : Z) (st : exec_state) : outcome Z * exec_state :=
  if n <=? 0 then (Panicked, st)
  else (Returned (rand_raw (draws st) mod n),
        mkExec (calls st) (S (draws st)) (trace st)).

Definition pow2_duration (k : Z) : Z :=
  if (0 <=? k) && (k <=? 62) then 2 ^ k else pow_out_of_range k.

Definition calculateDelay (attempt : Z) (config : RetryConfig) (err : error)
    (st : exec_state) : outcome Z * exec_state :=
  let retryAfter := GetRetryAfter err in
  if retryAfter >? 0 then (Returned retryAfter, st)
  else
    let delay := wrap64 (BaseDelay config * pow2_duration (attempt - 1)) in
    let delay := if delay >? MaxDelay config then MaxDelay config else delay in
    if Jitter config then
      match Int63n (Z.quot delay 10) st with
      | (Returned jitter, st) => (Returned (wrap64 (delay + jitter)), st)
      | (Panicked, st) => (Panicked, st)
      end
    else (Returned delay, st).

(** The body of the [for] loop of [Retry]; [remaining] counts the
    iterations left, [MaxAttempts - attempt + 1]. *)
Fixpoint Retry_loop (remaining : nat) (attempt : Z) (config : RetryConfig)
    (lastErr : error) (st : exec_state) : outcome error * exec_state :=
  match remaining with
  | O => (Returned lastErr, st)
  | S remaining =>
    let err := fn (calls st) in
    let st := mkExec (S (calls st)) (draws st) (trace st ++ [EvInvoke]) in
    match err with
    | None =>
      let st := if attempt >? 1 then emit (EvStderr (LogSucceeded attempt)) st
                else st in
      (Returned None, st)
    | Some e =>
      if negb (IsRetryableError err) then
        (Returned err, emit (EvStderr (LogNonRetryable e)) st)
      else if attempt =? MaxAttempts config then
        (Returned err, emit (EvStderr (LogExhausted (MaxAttempts config))) st)
      else
        match calculateDelay attempt config err st with
        | (Panicked, st) => (Panicked, st)
        | (Returned delay, st) =>
          let st := if OnRetry config then emit (EvOnRetry attempt e delay) st
                    else st in
          let st := emit (EvSleep delay) st in
          Retry_loop remaining (attempt + 1) config err st
        end
    end
  end.

Definition Retry (config : option RetryConfig) (st : exec_state)
    : outcome error * exec_state :=
  let config := match config with
                | None => DefaultRetryConfig
                | Some c => c
                end in
  Retry_loop (Z.to_nat (MaxAttempts config)) 1 config None st.

(** The cancel channel, as the executor observes it: whether a value is
    ready at the non-blocking receive that opens an iteration, and
    whether the channel wins the [select] against the timer.  Both are
    indexed by the number of invocations made so far. *)
Variable cancel_ready : nat -> bool.
Variable cancel_wins_wait : nat -> Z -> bool.

Definition cancelled_error : goerror := PlainError "operation cancelled" None.

Fixpoint RetryWithContext_loop (remaining : nat) (attempt : Z)
    (config : RetryConfig) (lastErr : error) (st : exec_state)
    : outcome error * exec_state :=
  match remaining with
  | O => (Returned lastErr, st)
  | S remaining =>
    if cancel_ready (calls st) then
      (Returned (Some cancelled_error), emit (EvStderr LogCancelled) st)
    else
    let err := fn (calls st) in
    let st := mkExec (S (calls st)) (draws st) (trace st ++ [EvInvoke]) in
    match err with
    | None =>
      let st := if attempt >? 1 then emit (EvStderr (LogSucceeded attempt)) st
                else st in
      (Returned None, st)
    | Some e =>
      if negb (IsRetryableError err) then (Returned err, st)
      else if attempt =? MaxAttempts config then (Returned err, st)
      else
        match calculateDelay attempt config err st with
        | (Panicked, st) => (Panicked, st)
        | (Returned delay, st) =>
          let st := if OnRetry config then emit (EvOnRetry attempt e delay) st
                    else st in
          if cancel_wins_wait (calls st) delay then
            (Returned (Some cancelled_error),
             emit (EvStderr LogCancelledDuringWait) (emit (EvWait delay true) st))
          else
            RetryWithContext_loop remaining (attempt + 1) config err
              (emit (EvWait delay false) st)
        end
    end
  end.

Definition RetryWithContext (config : option RetryConfig) (st : exec_state)
    : outcome error * exec_state :=
  let config := match config with
                | None => DefaultRetryConfig
                | Some c => c
                end in
  RetryWithContext_loop (Z.to_nat (MaxAttempts config)) 1 config None st.

End Executor.

Definition start : exec_state := mkExec 0 0 [].


(** The waits (sleeps or selects) recorded in a trace. *)
Definition is_wait (ev : event) : bool :=
  match ev with
  | EvSleep _ | EvWait _ _ => true
  | _ => false
  end.

(** ** User-facing text of an error (types.go) *)

Section FriendlyMessage.

Variable ToLower : string -> string.
(** [time.Duration.Round] and [time.Duration.String], of Go's library. *)
Variable Duration_Round : Z -> Z -> Z.
Variable Duration_String : Z -> string.
(** The order in which a [range] loop visits a map (not fixed by Go). *)
Variable range_order : gmap string string -> list (string * string).

Definition GetUserFriendlyMessage (e : APIError) : string :=
  match Type' e with
  | ErrorTypeRateLimit =>
    if RetryAfter e >? 0 then
      "GitHub rate limit reached. Please wait "
        +:+ Duration_String (Duration_Round (RetryAfter e) Second)
        +:+ " before trying again."
    else "GitHub rate limit reached. Please wait a moment before trying again."
  | ErrorTypePermission =>
    if Contains (ToLower (Message e)) "token" then
      "Permission denied. Your GitHub token may not have the required scopes. Check your token permissions."
    else "Permission denied. You may not have access to this resource."
  | ErrorTypeValidation =>
    match FieldErrors e with
    | Some fe =>
      if (0 <? Z.of_nat (size fe)) then
        let msgs := map (fun kv => fst kv +:+ ": " +:+ snd kv) (range_order fe) in
        "Validation failed: " +:+ Join msgs "; "
      else Message e
    | None => Message e
    end
  | ErrorTypeRetryable =>
    "Network error: " +:+ Message e +:+ ". This will be retried automatically."
  | ErrorTypeConflict =>
    "Conflict: " +:+ Message e
      +:+ ". The item may have been modified by someone else."
  | ErrorTypeUnknown => Message e
  end.

End FriendlyMessage.

(** ** internal/config *)

Record Config : Type := mkConfig {
  ProjectRepositories : gmap string string
}.

Definition GetDefaultRepository (c : Config) (projectID : string) : option string :=
  ProjectRepositories c !! projectID.

Definition SetDefaultRepository (c : Config) (projectID repositoryID : string) : Config :=
  mkConfig (<[projectID := repositoryID]> (ProjectRepositories c)).

Definition ClearDefaultRepository (c : Config) (projectID : string) : Config :=
  mkConfig (delete projectID (ProjectRepositories c)).

(** The state outside the [Model] value that the handlers read and
    write: the [Config] objects behind the pointers the model carries,
    the configuration file, and standard error. *)
Record World : Type := mkWorld {
  configs : nat -> Config;           (* the heap, by address *)
  config_file : option Config;       (* contents of config.json, if it exists *)
  config_path : goerror + string;    (* what GetConfigPath returns *)
  write_fault : option goerror;      (* the error of os.WriteFile, if it fails *)
  stderr : list string
}.

Definition store_config (c : nat) (v : Config) (w : World) : World :=
  mkWorld (fun c' => if Nat.eqb c' c then v else configs w c')
          (config_file w) (config_path w) (write_fault w) (stderr w).

Definition eprint (line : string) (w : World) : World :=
  mkWorld (configs w) (config_file w) (config_path w) (write_fault w)
          (stderr w ++ [line]).

(** [(c *Config) Save()]. *)
Definition Save (c : nat) (w : World) : error * World :=
  match config_path w with
  | inl e =>
    (Some (PlainError ("unable to determine config path: " +:+ Error e) (Some e)), w)
  | inr _ =>
    match write_fault w with
    | Some e =>
      (Some (PlainError ("failed to write config file: " +:+ Error e) (Some e)), w)
    | None =>
      (None, mkWorld (configs w) (Some (configs w c)) (config_path w)
                     (write_fault w) (stderr w))
    end
  end.

(** ** internal/models: the fields the handlers use *)

Record Project : Type := mkProject {
  Project_ID : string;
  Project_Number : Z;
  Project_Title : string
}.

Record ProjectItem : Type := mkProjectItem {
  Item_ID : string;
  Item_ContentID : string;
  Item_Type : string;
  Item_Title : string;
  Item_Body : string;
  Item_Assignees : list string
}.

Record Repository : Type := mkRepository {
  Repository_ID : string;
  Repository_Name : string;
  Repository_Owner : string;
  Repository_Description : string;
  Repository_IsPrivate : bool
}.

Record CreateItemInput : Type := mkCreateItemInput {
  Input_ProjectID : string;
  Input_ContentID : string;
  Input_Title : string;
  Input_Body : string
}.

(** ** internal/ui: the state aggregate and its message handlers *)

Inductive view : Set :=
| viewLoading
| viewOwnerSelector
| viewProjectList
| viewProjectDetail
| viewItemDetail
| viewItemEditor
| viewProjectCreator
| viewRepositorySelector
| viewHelp.

(** What the handlers take from outside the repository: the types of the
    widgets of the terminal library and of the API client, and the
    library functions behind [GetUserFriendlyMessage]. *)
Class Externals : Type := {
  Client : Type;
  OwnerSelectorModel : Type;
  ProjectListModel : Type;
  ProjectDetailModel : Type;
  ItemDetailModel : Type;
  ProjectCreatorModel : Type;
  TextArea : Type;
  ToLower : string -> string;
  Duration_Round : Z -> Z -> Z;
  Duration_String : Z -> string;
  range_order : gmap string string -> list (string * string)
}.

(** [textinput.Model], by the fields this program sets. *)
Record TextInput : Type := mkTextInput {
  Placeholder : string;
  focused : bool;
  CharLimit : Z;
  Width : Z;
  Value : string
}.

Definition textinput_New : TextInput := mkTextInput "" false 0 0 "".

Record RepositorySelectorModel : Type := mkRepositorySelectorModel {
  rs_input : TextInput;
  rs_repos : list Repository;
  rs_filteredRepos : list Repository;
  rs_selectedIndex : Z;
  rs_project : Project;
  rs_item : ProjectItem;
  rs_width : Z;
  rs_height : Z;
  rs_saveAsDefault : bool
}.

Definition NewRepositorySelectorModel (repos : list Repository)
    (project : Project) (item : ProjectItem) : RepositorySelectorModel :=
  let ti := textinput_New in
  let ti := mkTextInput "Type to filter repositories..." true (CharLimit ti) 80 (Value ti) in
  mkRepositorySelectorModel ti repos repos 0 project item 0 0 false.

(** [RepositorySelectorModel.Update] on a [tea.WindowSizeMsg]. *)
Definition RepositorySelector_resize (m : RepositorySelectorModel)
    (w h : Z) : RepositorySelectorModel :=
  let inputWidth := wrap64 (w - 10) in
  let inputWidth := if inputWidth <? 40 then 40 else inputWidth in
  let input := rs_input m in
  mkRepositorySelectorModel
    (mkTextInput (Placeholder input) (focused input) (CharLimit input) inputWidth (Value input))
    (rs_repos m) (rs_filteredRepos m) (rs_selectedIndex m) (rs_project m)
    (rs_item m) w h (rs_saveAsDefault m).

(** The messages. *)
Record SaveItemMsg : Type := mkSaveItemMsg {
  si_Project : Project;
  si_Item : option ProjectItem;
  si_Title : string;
  si_Body : string;
  si_Assignee : string;
  si_IsNewItem : bool
}.

Record DeleteItemMsg : Type := mkDeleteItemMsg {
  di_Project : Project;
  di_Item : ProjectItem
}.

Record LoadRepositoriesMsg : Type := mkLoadRepositoriesMsg {
  lr_Project : Project;
  lr_Item : ProjectItem
}.

Record RepositoriesLoadedMsg : Type := mkRepositoriesLoadedMsg {
  rl_Repositories : list Repository;
  rl_Project : Project;
  rl_Item : ProjectItem
}.

Record ConvertDraftMsg : Type := mkConvertDraftMsg {
  cd_Project : Project;
  cd_Item : ProjectItem;
  cd_Repository : Repository;
  cd_SaveAsDefault : bool
}.

Record PartialSuccessMsg : Type := mkPartialSuccessMsg {
  ps_Message : string;
  ps_WarningError : error
}.

Inductive Msg : Type :=
| MsgSaveItem (msg : SaveItemMsg)
| MsgItemSaved
| MsgPartialSuccess (msg : PartialSuccessMsg)
| MsgDeleteItem (msg : DeleteItemMsg)
| MsgItemDeleted (project : Project)
| MsgLoadRepositories (msg : LoadRepositoriesMsg)
| MsgRepositoriesLoaded (msg : RepositoriesLoadedMsg)
| MsgConvertDraft (msg : ConvertDraftMsg)
| MsgDraftConverted (project : Project)
| MsgError (Err : error).

(** The icon literals, byte for byte as model.go holds them. *)
Definition icon_warning : string := "âš ï¸ ".
Definition icon_rate_limit : string := "â±ï¸ ".
Definition icon_permission : string := "ðŸ”’ ".
Definition icon_retryable : string := "ðŸ”„ ".
Definition icon_other : string := "âŒ ".

Definition newline : string := String (ascii_of_nat 10) "".

Section UI.

Context {X : Externals}.

Record ItemEditorModel : Type := mkItemEditorModel {
  ie_project : Project;
  ie_owner : string;
  ie_isOrgProject : bool;
  ie_item : option ProjectItem;
  ie_titleInput : TextInput;
  ie_bodyInput : TextArea;
  ie_assigneeInput : TextInput;
  ie_focusIndex : Z;
  ie_isNewItem : bool;
  ie_width : Z;
  ie_height : Z;
  ie_suggestions : list string;
  ie_selectedSuggestion : Z;
  ie_showSuggestions : bool
}.

(** The commands the handlers schedule: each constructor is one of the
    command builders of model.go with its arguments. *)
Inductive Cmd : Type :=
| loadProjectItems (client : option Client) (project : Project)
| saveItem (client : option Client) (msg : SaveItemMsg)
| deleteItem (client : option Client) (msg : DeleteItemMsg)
| loadRepositories (client : option Client) (owner : string) (isUser : bool)
    (project : Project) (item : ProjectItem)
| convertDraft (client : option Client) (msg : ConvertDraftMsg)
| textinput_Blink.

Record Model : Type := mkModel {
  currentView : view;
  apiClient : option Client;
  config : option nat;               (* *config.Config: an address, or nil *)
  username : string;
  orgs : list string;
  currentOwner : string;
  currentIsUser : bool;
  ownerSelector : OwnerSelectorModel;
  projectList : ProjectListModel;
  projectDetail : ProjectDetailModel;
  itemDetail : ItemDetailModel;
  itemEditor : ItemEditorModel;
  projectCreator : ProjectCreatorModel;
  repositorySelector : RepositorySelectorModel;
  width : Z;
  height : Z;
  err : error;
  loading : bool;
  message : string;
  debugMode : bool
}.

(** Assignments to single fields of [m]. *)
Definition set_currentView (v : view) (m : Model) : Model :=
  mkModel v (apiClient m) (config m) (username m) (orgs m) (currentOwner m)
    (currentIsUser m) (ownerSelector m) (projectList m) (projectDetail m)
    (itemDetail m) (itemEditor m) (projectCreator m) (repositorySelector m)
    (width m) (height m) (err m) (loading m) (message m) (debugMode m).

Definition set_repositorySelector (r : RepositorySelectorModel) (m : Model) : Model :=
  mkModel (currentView m) (apiClient m) (config m) (username m) (orgs m)
    (currentOwner m) (currentIsUser m) (ownerSelector m) (projectList m)
    (projectDetail m) (itemDetail m) (itemEditor m) (projectCreator m) r
    (width m) (height m) (err m) (loading m) (message m) (debugMode m).

Definition set_err (e : error) (m : Model) : Model :=
  mkModel (currentView m) (apiClient m) (config m) (username m) (orgs m)
    (currentOwner m) (currentIsUser m) (ownerSelector m) (projectList m)
    (projectDetail m) (itemDetail m) (itemEditor m) (projectCreator m)
    (repositorySelector m) (width m) (height m) e (loading m) (message m)
    (debugMode m).

Definition set_loading (b : bool) (m : Model) : Model :=
  mkModel (currentView m) (apiClient m) (config m) (username m) (orgs m)
    (currentOwner m) (currentIsUser m) (ownerSelector m) (projectList m)
    (projectDetail m) (itemDetail m) (itemEditor m) (projectCreator m)
    (repositorySelector m) (width m) (height m) (err m) b (message m)
    (debugMode m).

Definition set_message (s : string) (m : Model) : Model :=
  mkModel (currentView m) (apiClient m) (config m) (username m) (orgs m)
    (currentOwner m) (currentIsUser m) (ownerSelector m) (projectList m)
    (projectDetail m) (itemDetail m) (itemEditor m) (projectCreator m)
    (repositorySelector m) (width m) (height m) (err m) (loading m) s
    (debugMode m).

Definition friendly (e : APIError) : string :=
  GetUserFriendlyMessage ToLower Duration_Round Duration_String range_order e.

(** The tail of the [RepositoriesLoadedMsg] case, after the lookup of a
    saved default: one repository is converted at once, any other number
    of repositories opens the selector. *)
Definition select_repository (m : Model) (msg : RepositoriesLoadedMsg)
    (w : World) : Model * option Cmd * World :=
  match rl_Repositories msg with
  | [repo] =>
    let m := set_loading true m in
    let m := set_message ("Converting to issue in " +:+ Repository_Name repo +:+ "...") m in
    (m, Some (convertDraft (apiClient m)
                (mkConvertDraftMsg (rl_Project msg) (rl_Item msg) repo false)), w)
  | _ =>
    let m := set_repositorySelector
               (NewRepositorySelectorModel (rl_Repositories msg) (rl_Project msg)
                  (rl_Item msg)) m in
    let rs := repositorySelector m in
    let m := set_repositorySelector
               (mkRepositorySelectorModel (rs_input rs) (rs_repos rs)
                  (rs_filteredRepos rs) (rs_selectedIndex rs) (rs_project rs)
                  (rs_item rs) (width m) (height m) (rs_saveAsDefault rs)) m in
    let m := set_currentView viewRepositorySelector m in
    let m := set_loading false m in
    let m := set_repositorySelector
               (RepositorySelector_resize (repositorySelector m) (width m) (height m)) m in
    (m, Some textinput_Blink, w)
  end.

(** [Model.Update], on the messages above. *)
Definition Update (m : Model) (msg : Msg) (w : World)
    : Model * option Cmd * World :=
  match msg with
  | MsgSaveItem msg =>
    let m := set_loading true m in
    let m := set_message "Saving item..." m in
    (m, Some (saveItem (apiClient m) msg), w)

  | MsgItemSaved =>
    let m := set_loading false m in
    (m, Some (loadProjectItems (apiClient m) (ie_project (itemEditor m))), w)

  | MsgPartialSuccess msg =>
    let m := set_loading false m in
    let m := set_err None m in
    let m := set_message (icon_warning +:+ ps_Message msg) m in
    (m, Some (loadProjectItems (apiClient m) (ie_project (itemEditor m))), w)

  | MsgDeleteItem msg =>
    let m := set_loading true m in
    let m := set_message "Deleting item..." m in
    (m, Some (deleteItem (apiClient m) msg), w)

  | MsgItemDeleted project =>
    let m := set_loading false m in
    let m := set_message "" m in
    (m, Some (loadProjectItems (apiClient m) project), w)

  | MsgLoadRepositories msg =>
    let m := set_loading true m in
    let m := set_message "Loading repositories..." m in
    (m, Some (loadRepositories (apiClient m) (currentOwner m) (currentIsUser m)
                (lr_Project msg) (lr_Item msg)), w)

  | MsgRepositoriesLoaded msg =>
    match config m with
    | Some c =>
      match GetDefaultRepository (configs w c) (Project_ID (rl_Project msg)) with
      | Some defaultRepoID =>
        match List.find (fun repo => String.eqb (Repository_ID repo) defaultRepoID)
                        (rl_Repositories msg) with
        | Some repo =>
          let m := set_loading true m in
          let m := set_message ("Converting to issue in " +:+ Repository_Name repo
                                  +:+ " (default)...") m in
          (m, Some (convertDraft (apiClient m)
                      (mkConvertDraftMsg (rl_Project msg) (rl_Item msg) repo false)), w)
        | None =>
          let w := store_config c
                     (ClearDefaultRepository (configs w c) (Project_ID (rl_Project msg))) w in
          let '(e, w) := Save c w in
          let w := match e with
                   | Some e => eprint ("Warning: failed to save config: "
                                         +:+ Error e +:+ newline) w
                   | None => w
                   end in
          select_repository m msg w
        end
      | None => select_repository m msg w
      end
    | None => select_repository m msg w
    end

  | MsgConvertDraft msg =>
    let w :=
      match cd_SaveAsDefault msg, config m with
      | true, Some c =>
        let w := store_config c
                   (SetDefaultRepository (configs w c) (Project_ID (cd_Project msg))
                      (Repository_ID (cd_Repository msg))) w in
        let '(e, w) := Save c w in
        match e with
        | Some e => eprint ("Warning: failed to save config: "
                              +:+ Error e +:+ newline) w
        | None => w
        end
      | _, _ => w
      end in
    let m := set_loading true m in
    let m := set_message "Converting draft to issue..." m in
    (m, Some (convertDraft (apiClient m) msg), w)

  | MsgDraftConverted project =>
    let m := set_loading false m in
    let m := set_message "" m in
    (m, Some (loadProjectItems (apiClient m) project), w)

  | MsgError Err =>
    let m :=
      match Err with
      | Some (ApiError apiErr) =>
        let m := set_err (Some (PlainError (friendly apiErr) None)) m in
        let icon := match Type' apiErr with
                    | ErrorTypeRateLimit => icon_rate_limit
                    | ErrorTypePermission => icon_permission
                    | ErrorTypeValidation => icon_warning
                    | ErrorTypeRetryable => icon_retryable
                    | _ => icon_other
                    end in
        set_message (icon +:+ friendly apiErr) m
      | _ =>
        let m := set_err Err m in
        set_message "" m
      end in
    let m := set_loading false m in
    (m, None, w)
  end.

(** [Model.View], up to styling: which of its three branches renders
    the screen, and with what text. *)
Inductive screen : Type :=
| LoadingScreen (text : string) (warning_style : bool)
| ErrorOverlay (text : string)
| ViewScreen (v : view).

Definition renderLoading (m : Model) : screen :=
  let msg := message m in
  let msg := if String.eqb msg "" then "Initializing..." else msg in
  LoadingScreen msg (Contains msg "âš ï¸" || Contains msg "ðŸ”’").

Definition renderError (m : Model) : screen :=
  let errorText := "Error: " +:+ match err m with
                                 | Some e => Error e
                                 | None => "<nil>"
                                 end in
  let errorText := if negb (String.eqb (message m) "") then message m
                   else errorText in
  ErrorOverlay errorText.

Definition View (m : Model) : screen :=
  if loading m then renderLoading m
  else match err m with
       | Some _ => renderError m
       | None => ViewScreen (currentView m)
       end.

(** The error overlay is up when the error value is set. *)
Definition error_overlay (m : Model) : bool :=
  match err m with
  | Some _ => true
  | None => false
  end.

End UI.

(** ** The command [saveItem]

    What the closure returned by [saveItem] computes when the runtime
    runs it, against the three calls it makes on the API client.  (Its
    diagnostic output on standard error is left out.) *)

Inductive result (A : Type) : Type :=
| Ok (a : A)
| Failed (e : goerror).
Arguments Ok {A}.
Arguments Failed {A}.

Record Remote : Type := mkRemote {
  GetUserNodeID : string -> result string;
  CreateDraftIssue : CreateItemInput -> result ProjectItem;
  UpdateDraftIssue : string -> string -> string -> list string -> result ProjectItem
}.

Section Commands.

Context {X : Externals}.

Definition update_existing (client : Remote) (msg : SaveItemMsg)
    (assigneeIDs : list string) : outcome Msg :=
  match si_Item msg with
  | None => Panicked                       (* msg.Item.ContentID on a nil pointer *)
  | Some item =>
    let contentID := Item_ContentID item in
    let contentID := if String.eqb contentID "" then Item_ID item else contentID in
    match UpdateDraftIssue client contentID (si_Title msg) (si_Body msg) assigneeIDs with
    | Failed e =>
      Returned (MsgError (Some (PlainError ("failed to update item: " +:+ Error e) (Some e))))
    | Ok _ => Returned MsgItemSaved
    end
  end.

Definition create_new (client : Remote) (msg : SaveItemMsg)
    (assigneeIDs : list string) : outcome Msg :=
  match CreateDraftIssue client
          (mkCreateItemInput (Project_ID (si_Project msg)) "" (si_Title msg) (si_Body msg)) with
  | Failed e => Returned (MsgError (Some e))
  | Ok item =>
    if (0 <? Z.of_nat (length assigneeIDs)) then
      match UpdateDraftIssue client (Item_ContentID item) (si_Title msg) (si_Body msg)
              assigneeIDs with
      | Failed e =>
        match e with
        | ApiError apiErr =>
          Returned (MsgPartialSuccess
            (mkPartialSuccessMsg
               ("Draft issue created, but failed to assign user: " +:+ friendly apiErr)
               (Some e)))
        | _ =>
          Returned (MsgPartialSuccess
            (mkPartialSuccessMsg "Draft issue created, but failed to assign user" (Some e)))
        end
      | Ok _ => Returned MsgItemSaved
      end
    else Returned MsgItemSaved
  end.

Definition run_saveItem (client : Remote) (msg : SaveItemMsg) : outcome Msg :=
  let save assigneeIDs :=
    if si_IsNewItem msg then create_new client msg assigneeIDs
    else update_existing client msg assigneeIDs in
  if negb (String.eqb (si_Assignee msg) "") then
    match GetUserNodeID client (si_Assignee msg) with
    | Failed e =>
      Returned (MsgError (Some (PlainError
        ("failed to get user ID for " +:+ si_Assignee msg +:+ ": " +:+ Error e) (Some e))))
    | Ok nodeID => save [nodeID]
    end
  else save [].

End Commands.

(** ** Auxiliary definitions for the statements *)

(** Whether [calculateDelay] returns at this attempt: the jitter draw
    [rand.Int63n(delay / 10)] panics on a capped delay below ten
    nanoseconds. *)
Definition delay_defined (pow_out_of_range : Z -> Z) (attempt : Z)
    (config : RetryConfig) (err : error) : bool :=
  (GetRetryAfter err >? 0)
  || negb (Jitter config)
  || (let delay := wrap64 (BaseDelay config * pow2_duration pow_out_of_range (attempt - 1)) in
      let delay := if delay >? MaxDelay config then MaxDelay config else delay in
      0 <? Z.quot delay 10).

(** An operation that fails at every invocation with the same error. *)
Definition always (e : goerror) : nat -> error := fun _ => Some e.

(** The classification of a raw failure "temporary failure", as the API
    client builds it with [ClassifyError(err, 0)]. *)
Definition transient_failure : goerror :=
  ApiError (RetryableError "temporary failure"
              (Some (PlainError "temporary failure" None))).

(** A policy built as a struct literal that sets two fields,
    [&RetryConfig{MaxAttempts: 2, Jitter: true}]. *)
Definition zero_delay_jitter : RetryConfig := mkRetryConfig 2 0 0 true false.

Definition no_jitter_policy (maxAttempts : Z) (onRetry : bool) : RetryConfig :=
  mkRetryConfig maxAttempts (1 * Second) (16 * Second) false onRetry.


(** A world of the simplest kind, and models over it. *)
#[local] Instance plain_externals : Externals := {|
  Client := unit;
  OwnerSelectorModel := unit;
  ProjectListModel := unit;
  ProjectDetailModel := unit;
  ItemDetailModel := unit;
  ProjectCreatorModel := unit;
  TextArea := unit;
  ToLower := ascii_ToLower;
  Duration_Round := fun d _ => d;
  Duration_String := fun _ => "1m0s";
  range_order := map_to_list
|}.

Definition demo_project : Project := mkProject "PVT_1" 1 "Roadmap".
Definition demo_item : ProjectItem := mkProjectItem "PVTI_1" "DI_1" "DraftIssue" "Fix login" "" [].
Definition repo_a : Repository := mkRepository "R_a" "alpha" "octo" "" false.
Definition repo_b : Repository := mkRepository "R_b" "beta" "octo" "" true.

Definition demo_editor : ItemEditorModel :=
  mkItemEditorModel demo_project "octo" false None textinput_New tt textinput_New
    0 true 80 24 [] 0 false.

Definition demo_model : Model :=
  mkModel viewItemEditor (Some tt) (Some 0%nat) "octo" [] "octo" true tt tt tt tt
    demo_editor tt (NewRepositorySelectorModel [] demo_project demo_item)
    80 24 None true "Saving item..." false.

(** A world whose only [Config] object remembers [repo] for the demo project. *)
Definition demo_world (repo : string) : World :=
  mkWorld (fun _ => mkConfig {[ "PVT_1" := repo ]})
          (Some (mkConfig {[ "PVT_1" := repo ]}))
          (inr "/home/octo/.config/ghptui/config.json") None [].


Definition partial_warning : PartialSuccessMsg :=
  mkPartialSuccessMsg "Draft issue created, but failed to assign user"
    (Some transient_failure).

Definition loaded (repos : list Repository) : RepositoriesLoadedMsg :=
  mkRepositoriesLoadedMsg repos demo_project demo_item.

(** A 403 whose message also matches the validation rule. *)
Definition forbidden_and_invalid : goerror :=
  PlainError "403 Forbidden: invalid token" None.

Definition rate_limit_rule : rule :=
  mkRule ErrorTypeRateLimit (fun m s =>
    (s =? 429) || Contains m "rate limit" || Contains m "rate_limited").

Definition permission_rule : rule :=
  mkRule ErrorTypePermission (fun m s =>
    (s =? 401) || (s =? 403) || Contains m "not authorized"
    || Contains m "permission denied" || Contains m "forbidden"
    || Contains m "does not have access").

Definition connection_reset : goerror := PlainError "connection reset by peer" None.

Definition permission_denied : goerror :=
  ApiError (PermissionError "Permission denied" None).

(** ** More of internal/errors *)

(** [(e *APIError) Unwrap()]. *)
Definition Unwrap (e : APIError) : error := OriginalErr e.

(** A value of type [interface{}] in the extensions of a GraphQL error.
    A [float64] is given by the integer its conversion to [int64] yields,
    which is all the code takes from it. *)
#[warnings="-register-all"]
Inductive ext_value : Type :=
| ExtFloat64 (as_int64 : Z)
| ExtInt (n : Z)
| ExtString (s : string)
| ExtMap (fields : gmap string ext_value)
| ExtOther.

Record GraphQLError : Type := mkGraphQLError {
  gql_Type : string;
  gql_Message : string;
  gql_Path : list ext_value;
  gql_Extensions : option (gmap string ext_value)
}.

Definition extractRetryAfterFromExtensions
    (extensions : option (gmap string ext_value)) : Z :=
  match extensions with
  | None => 60 * Second
  | Some extensions =>
    match extensions !! "retryAfter" with
    | Some (ExtFloat64 retryAfter) => wrap64 (retryAfter * Second)
    | Some (ExtInt retryAfter) => wrap64 (retryAfter * Second)
    | _ => 60 * Second
    end
  end.

Definition extractFieldErrorsFromExtensions
    (extensions : option (gmap string ext_value)) : option (gmap string string) :=
  match extensions with
  | None => None
  | Some extensions =>
    Some (match extensions !! "fields" with
          | Some (ExtMap fields) =>
            omap (fun errVal => match errVal with
                                | ExtString errStr => Some errStr
                                | _ => None
                                end) fields
          | _ => ∅
          end)
  end.

Section GraphQLClassifier.

(** [strings.ToLower] and [strings.ToUpper]. *)
Variable ToLower : string -> string.
Variable ToUpper : string -> string.

Definition ClassifyGraphQLError (gqlErr : GraphQLError) : APIError :=
  let errType := ToUpper (gql_Type gqlErr) in
  let errMsg := gql_Message gqlErr in
  let errLower := ToLower errMsg in
  if String.eqb errType "RATE_LIMITED" then
    RateLimitError errMsg (extractRetryAfterFromExtensions (gql_Extensions gqlErr))
  else if String.eqb errType "FORBIDDEN" || String.eqb errType "UNAUTHORIZED" then
    PermissionError errMsg None
  else if String.eqb errType "NOT_FOUND" || String.eqb errType "INVALID" then
    ValidationError errMsg (extractFieldErrorsFromExtensions (gql_Extensions gqlErr))
  else if Contains errLower "rate limit" then
    RateLimitError errMsg (extractRetryAfterFromExtensions (gql_Extensions gqlErr))
  else if Contains errLower "permission"
       || Contains errLower "authorized"
       || Contains errLower "access" then
    PermissionError errMsg None
  else if Contains errLower "invalid" || Contains errLower "not found" then
    ValidationError errMsg None
  else mkAPIError ErrorTypeUnknown errMsg None false 0 0 errType None.

End GraphQLClassifier.

(** ** More of internal/ui *)

(** The rest of [RepositorySelectorModel.Update]: what a command of the
    selector is, and the handling of a key. *)
Inductive selector_cmd : Type :=
| SelNone                                   (* nil *)
| SelConvertDraft (msg : ConvertDraftMsg)   (* ConvertDraftCmd(...) *)
| SelInput.                                 (* the command of the text input *)

Definition set_selection (i : Z) (m : RepositorySelectorModel) : RepositorySelectorModel :=
  mkRepositorySelectorModel (rs_input m) (rs_repos m) (rs_filteredRepos m) i
    (rs_project m) (rs_item m) (rs_width m) (rs_height m) (rs_saveAsDefault m).

Section Selector.

Variable ToLower : string -> string.
(** [textinput.Model.Update] on a key. *)
Variable input_Update : TextInput -> string -> TextInput.

Definition filterRepositories (m : RepositorySelectorModel) : RepositorySelectorModel :=
  let filter := ToLower (Value (rs_input m)) in
  let filtered :=
    if String.eqb filter "" then rs_repos m
    else List.filter (fun repo =>
           let repoName := ToLower (Repository_Name repo) in
           let repoOwner := ToLower (Repository_Owner repo) in
           let repoDesc := ToLower (Repository_Description repo) in
           let fullName := ToLower (Repository_Owner repo +:+ "/" +:+ Repository_Name repo) in
           Contains repoName filter || Contains repoOwner filter
           || Contains fullName filter || Contains repoDesc filter)
         (rs_repos m) in
  mkRepositorySelectorModel (rs_input m) (rs_repos m) filtered (rs_selectedIndex m)
    (rs_project m) (rs_item m) (rs_width m) (rs_height m) (rs_saveAsDefault m).

(** [RepositorySelectorModel.Update] on a [tea.KeyMsg] whose [String()]
    is [key].  List lengths and indices are far from the bounds of [int],
    so the index arithmetic is that of [Z]. *)
Definition RepositorySelector_key (m : RepositorySelectorModel) (key : string)
    : RepositorySelectorModel * selector_cmd :=
  let len := Z.of_nat (length (rs_filteredRepos m)) in
  if String.eqb key "down" || String.eqb key "ctrl+n" then
    if 0 <? len then
      let i := rs_selectedIndex m + 1 in
      let i := if i >=? len then 0 else i in
      (set_selection i m, SelNone)
    else (m, SelNone)
  else if String.eqb key "up" || String.eqb key "ctrl+p" then
    if 0 <? len then
      let i := rs_selectedIndex m - 1 in
      let i := if i <? 0 then len - 1 else i in
      (set_selection i m, SelNone)
    else (m, SelNone)
  else if String.eqb key "enter" then
    if (0 <? len) && (rs_selectedIndex m >=? 0) && (rs_selectedIndex m <? len) then
      match nth_error (rs_filteredRepos m) (Z.to_nat (rs_selectedIndex m)) with
      | Some repo =>
        (m, SelConvertDraft (mkConvertDraftMsg (rs_project m) (rs_item m) repo
                               (rs_saveAsDefault m)))
      | None => (m, SelNone)   (* excluded by the bounds just tested *)
      end
    else (m, SelNone)
  else if String.eqb key "ctrl+d" then
    (mkRepositorySelectorModel (rs_input m) (rs_repos m) (rs_filteredRepos m)
       (rs_selectedIndex m) (rs_project m) (rs_item m) (rs_width m) (rs_height m)
       (negb (rs_saveAsDefault m)), SelNone)
  else
    let oldValue := Value (rs_input m) in
    let m := mkRepositorySelectorModel (input_Update (rs_input m) key) (rs_repos m)
               (rs_filteredRepos m) (rs_selectedIndex m) (rs_project m) (rs_item m)
               (rs_width m) (rs_height m) (rs_saveAsDefault m) in
    let m := if negb (String.eqb (Value (rs_input m)) oldValue)
             then set_selection 0 (filterRepositories m)
             else m in
    (m, SelInput).

End Selector.

(** The selection points into the filtered list (or the list is empty
    and the selection is 0), and the filtered list is drawn from the
    repositories in their order. *)
Definition selection_in_range (m : RepositorySelectorModel) : Prop :=
  (rs_filteredRepos m = [] /\ rs_selectedIndex m = 0)
  \/ 0 <= rs_selectedIndex m < Z.of_nat (length (rs_filteredRepos m)).

(** [SaveAndConvertMsg]: the fields [saveAndConvert] reads (the
    declaration of the struct is not among the sources). *)
Record SaveAndConvertMsg : Type := mkSaveAndConvertMsg {
  sc_Project : Project;
  sc_Item : option ProjectItem;
  sc_Title : string;
  sc_Body : string;
  sc_Assignee : string;
  sc_IsNewItem : bool
}.

(** The messages [saveAndConvert] returns. *)
Inductive prepared : Type :=
| PrepError (Err : error)                                        (* ErrorMsg *)
| PrepReady (project : Project) (item : ProjectItem).   (* ItemSavedAndReadyToConvertMsg *)

Definition run_saveAndConvert (client : Remote) (msg : SaveAndConvertMsg)
    : outcome prepared :=
  let save (assigneeIDs : list string) : outcome prepared :=
    if sc_IsNewItem msg then
      match CreateDraftIssue client
              (mkCreateItemInput (Project_ID (sc_Project msg)) "" (sc_Title msg)
                 (sc_Body msg)) with
      | Failed e =>
        Returned (PrepError (Some (PlainError ("failed to create item: " +:+ Error e)
                                     (Some e))))
      | Ok savedItem =>
        if (0 <? Z.of_nat (length assigneeIDs)) then
          match UpdateDraftIssue client (Item_ContentID savedItem) (sc_Title msg)
                  (sc_Body msg) assigneeIDs with
          | Failed e =>
            Returned (PrepError (Some (PlainError
              ("item created but failed to assign user: " +:+ Error e) (Some e))))
          | Ok _ => Returned (PrepReady (sc_Project msg) savedItem)
          end
        else Returned (PrepReady (sc_Project msg) savedItem)
      end
    else
      match sc_Item msg with
      | None => Panicked                     (* msg.Item.ContentID on a nil pointer *)
      | Some item =>
        let contentID := Item_ContentID item in
        let contentID := if String.eqb contentID "" then Item_ID item else contentID in
        match UpdateDraftIssue client contentID (sc_Title msg) (sc_Body msg)
                assigneeIDs with
        | Failed e =>
          Returned (PrepError (Some (PlainError ("failed to update item: " +:+ Error e)
                                       (Some e))))
        | Ok savedItem => Returned (PrepReady (sc_Project msg) savedItem)
        end
      end in
  if negb (String.eqb (sc_Assignee msg) "") then
    match GetUserNodeID client (sc_Assignee msg) with
    | Failed e =>
      Returned (PrepError (Some (PlainError
        ("failed to get user ID for " +:+ sc_Assignee msg +:+ ": " +:+ Error e)
        (Some e))))
    | Ok nodeID => save [nodeID]
    end
  else save [].

Section Keys.

Context {X : Externals}.

Definition set_debugMode (b : bool) (m : Model) : Model :=
  mkModel (currentView m) (apiClient m) (config m) (username m) (orgs m)
    (currentOwner m) (currentIsUser m) (ownerSelector m) (projectList m)
    (projectDetail m) (itemDetail m) (itemEditor m) (projectCreator m)
    (repositorySelector m) (width m) (height m) (err m) (loading m) (message m) b.

(** How the [tea.KeyMsg] case of [Model.Update] ends: with [tea.Quit],
    with a return of the model and no command, or by falling through to
    the update of the sub-model of the active view. *)
Inductive key_outcome : Type :=
| KeyQuit (m : Model)
| KeyHandled (m : Model)
| KeyDelegated (m : Model).

(** The [tea.KeyMsg] case of [Model.Update], for the key [msg.String()]. *)
Definition HandleKey (m : Model) (key : string) : key_outcome :=
  if String.eqb key "ctrl+c" || String.eqb key "q" then
    match currentView m with
    | viewOwnerSelector | viewProjectList => KeyQuit m
    | _ => KeyDelegated m
    end
  else if String.eqb key "esc" then
    match err m with
    | Some _ => KeyHandled (set_err None m)
    | None =>
      match currentView m with
      | viewProjectList =>
        if (0 <? Z.of_nat (length (orgs m)))
        then KeyHandled (set_currentView viewOwnerSelector m)
        else KeyDelegated m
      | viewProjectDetail => KeyHandled (set_currentView viewProjectList m)
      | viewItemDetail => KeyHandled (set_currentView viewProjectDetail m)
      | viewItemEditor =>
        match ie_item (itemEditor m) with
        | Some _ => KeyHandled (set_currentView viewItemDetail m)
        | None => KeyHandled (set_currentView viewProjectDetail m)
        end
      | viewProjectCreator => KeyHandled (set_currentView viewProjectList m)
      | viewRepositorySelector => KeyHandled (set_currentView viewItemDetail m)
      | viewHelp => KeyHandled (set_currentView viewProjectList m)
      | _ => KeyDelegated m
      end
    end
  else if String.eqb key "?" then
    match currentView m with
    | viewHelp => KeyHandled (set_currentView viewProjectList m)
    | _ => KeyHandled (set_currentView viewHelp m)
    end
  else if String.eqb key "ctrl+d" then
    KeyHandled (set_debugMode (negb (debugMode m)) m)
  else KeyDelegated m.

(** The model a key leaves, however the case ends. *)
Definition key_model (o : key_outcome) : Model :=
  match o with
  | KeyQuit m | KeyHandled m | KeyDelegated m => m
  end.

(** [n] presses of "esc", stopping at the first that is not handled at
    the top level; the result tells how many were handled. *)
Fixpoint press_esc (n : nat) (m : Model) : nat * Model :=
  match n with
  | O => (O, m)
  | S n =>
    match HandleKey m "esc" with
    | KeyHandled m' => let '(k, m'') := press_esc n m' in (S k, m'')
    | _ => (O, m)
    end
  end.

End Keys.

(** ** Definitions for the further properties *)

(** The sleeps recorded in a trace. *)
Definition sleeps (t : list event) : nat :=
  length (List.filter (fun ev => match ev with EvSleep _ => true | _ => false end) t).

(** The policy an executor runs under: the default when none is given. *)
Definition effective (config : option RetryConfig) : RetryConfig :=
  match config with
  | Some c => c
  | None => DefaultRetryConfig
  end.

(** The same policy with the jitter switched off. *)
Definition without_jitter (config : RetryConfig) : RetryConfig :=
  mkRetryConfig (MaxAttempts config) (BaseDelay config) (MaxDelay config) false
    (OnRetry config).

(** An operation that fails with [e] a number of times and then succeeds. *)
Definition flaky (failures : nat) (e : goerror) : nat -> error :=
  fun k => if (k <? failures)%nat then Some e else None.

(** The kind a GraphQL error type selects before the message is looked at. *)
Definition kind_of_graphql_type (errType : string) : option ErrorType :=
  if String.eqb errType "RATE_LIMITED" then Some ErrorTypeRateLimit
  else if String.eqb errType "FORBIDDEN" || String.eqb errType "UNAUTHORIZED"
  then Some ErrorTypePermission
  else if String.eqb errType "NOT_FOUND" || String.eqb errType "INVALID"
  then Some ErrorTypeValidation
  else None.

(** How many steps back a view is from the top of the navigation. *)
Definition view_rank (v : view) : nat :=
  match v with
  | viewItemEditor | viewRepositorySelector => 4
  | viewItemDetail => 3
  | viewProjectDetail | viewProjectCreator | viewHelp => 2
  | viewProjectList => 1
  | viewLoading | viewOwnerSelector => 0
  end.

(** The [SaveItemMsg] with the fields of a [SaveAndConvertMsg]. *)
Definition as_save (msg : SaveAndConvertMsg) : SaveItemMsg :=
  mkSaveItemMsg (sc_Project msg) (sc_Item msg) (sc_Title msg) (sc_Body msg)
    (sc_Assignee msg) (sc_IsNewItem msg).

(** The command [Model.Update] returns on a key. *)
Inductive key_cmd : Type :=
| KeyCmdQuit                          (* tea.Quit *)
| KeyCmdNil
| KeyCmdSelector (c : selector_cmd).

Section KeysOfSelector.

Context {X : Externals}.
Variable input_Update : TextInput -> string -> TextInput.

(** [Model.Update] on a key, where the sub-model of the active view is
    one of this repository's that is modelled here (the repository
    selector) or there is none (loading and help screens); [None] for the
    views whose sub-model wraps a widget of the terminal library. *)
Definition Update_key (m : Model) (key : string) : option (Model * key_cmd) :=
  match HandleKey m key with
  | KeyQuit m => Some (m, KeyCmdQuit)
  | KeyHandled m => Some (m, KeyCmdNil)
  | KeyDelegated m =>
    match currentView m with
    | viewRepositorySelector =>
      let '(rs, cmd) := RepositorySelector_key ToLower input_Update
                          (repositorySelector m) key in
      Some (set_repositorySelector rs m, KeyCmdSelector cmd)
    | viewLoading | viewHelp => Some (m, KeyCmdNil)
    | _ => None
    end
  end.

End KeysOfSelector.

(** The project whose stored default a message may change. *)
Definition default_touched_by (msg : Msg) : option string :=
  match msg with
  | MsgRepositoriesLoaded r => Some (Project_ID (rl_Project r))
  | MsgConvertDraft c => Some (Project_ID (cd_Project c))
  | _ => None
  end.

(** The icon [ErrorMsg] puts before the text of an API error. *)
Definition error_icon (t : ErrorType) : string :=
  match t with
  | ErrorTypeRateLimit => icon_rate_limit
  | ErrorTypePermission => icon_permission
  | ErrorTypeValidation => icon_warning
  | ErrorTypeRetryable => icon_retryable
  | _ => icon_other
  end.

(** An API client that creates drafts but fails to update them. *)
Definition unassignable_remote : Remote :=
  mkRemote (fun login => Ok ("U_" +:+ login))
           (fun input => Ok demo_item)
           (fun id title body ids => Failed connection_reset).

(** An API client whose calls all succeed. *)
Definition demo_remote : Remote :=
  mkRemote (fun login => Ok ("U_" +:+ login))
           (fun input => Ok demo_item)
           (fun id title body ids => Ok demo_item).

(** *** The duration token of the specification

    The specification has the delay of a rate-limit failure parsed from
    the message when it holds a duration token.  [spec_duration_token]
    is such a reading, written from the specification's words: the first
    decimal number that is followed by " seconds", as that many seconds.
    It is compared with what [extractRetryAfter] returns. *)

Definition is_digit (c : ascii) : bool :=
  ((48 <=? nat_of_ascii c)%nat && (nat_of_ascii c <=? 57)%nat)%bool.

Fixpoint read_digits (s : string) (acc : Z) : Z * string :=
  match s with
  | String c rest =>
    if is_digit c then read_digits rest (10 * acc + Z.of_nat (nat_of_ascii c - 48))
    else (acc, s)
  | EmptyString => (acc, s)
  end.

Fixpoint spec_duration_token (s : string) : option Z :=
  match s with
  | EmptyString => None
  | String c rest =>
    if is_digit c then
      let '(n, after) := read_digits s 0 in
      if String.prefix " seconds" after then Some (n * Second)
      else spec_duration_token rest
    else spec_duration_token rest
  end.

(** A rate-limit failure that names a delay of thirty seconds. *)
Definition retry_after_thirty : goerror :=
  PlainError "API rate limit exceeded, retry after 30 seconds" None.

(** * Properties *)

(** ** The classifier *)

Section ClassifierFacts.

Variable lower : string -> string.

(** [ClassifyError] is total on non-nil errors; the kind it returns is
    the one of the first rule of [spec_rules] that matches, and its
    retryable flag is decided by the kind. *)
Lemma ClassifyError_first_match (e : goerror) (status : Z) :
  exists a, ClassifyError lower (Some e) status = Some a
    /\ Type' a = spec_kind (lower (Error e)) status
    /\ Retryable a = retryable_kind (Type' a).
Proof.
  unfold ClassifyError, spec_kind, spec_rules, first_match, rule_matches, rule_kind.
  unfold StatusTooManyRequests, StatusForbidden, StatusUnauthorized,
    StatusBadRequest, StatusConflict.
  rewrite (orb_comm (status =? 403) (status =? 401)).
  repeat match goal with
         | |- context [if ?c then _ else _] => destruct c
         end; eexists; repeat split; reflexivity.
Qed.

Lemma ClassifyError_nil (status : Z) : ClassifyError lower None status = None.
Proof. reflexivity. Qed.

(** Classification is a function: equal inputs, equal results. *)
Lemma ClassifyError_deterministic (err1 err2 : error) (s1 s2 : Z) :
  err1 = err2 -> s1 = s2 ->
  ClassifyError lower err1 s1 = ClassifyError lower err2 s2.
Proof. intros -> ->; reflexivity. Qed.

(** In an ordered rule list the first matching rule decides. *)
Lemma first_match_earliest (before after : list rule) (r : rule) (m : string) (s : Z) :
  rule_matches r m s = true ->
  Forall (fun r' => rule_matches r' m s = false) before ->
  first_match (before ++ r :: after)%list m s = rule_kind r.
Proof.
  intros Hr Hb; induction Hb as [|r' before Hr' _ IH]; simpl.
  - now rewrite Hr.
  - now rewrite Hr'.
Qed.

(** When the rate-limit rule fires, the result is a rate-limit error
    whose delay comes from [extractRetryAfter]. *)
Lemma ClassifyError_rate_limit (e : goerror) (status : Z) :
  (status =? 429) || Contains (lower (Error e)) "rate limit"
    || Contains (lower (Error e)) "rate_limited" = true ->
  ClassifyError lower (Some e) status
  = Some (RateLimitError "GitHub API rate limit exceeded" (extractRetryAfter (Error e))).
Proof.
  intros H; unfold ClassifyError, StatusTooManyRequests; now rewrite H.
Qed.

End ClassifierFacts.

Lemma extractRetryAfter_constant (errMsg : string) :
  extractRetryAfter errMsg = 60 * Second.
Proof. unfold extractRetryAfter; now destruct (Contains errMsg "60"). Qed.

(** C5. The rules are tried in the order RateLimit, Permission,
    Validation, Conflict, Transient, Unknown and the first match wins: the
    kind returned is the first-match reading of the ordered rule list;
    when a rule matches and none before it does, its kind is returned,
    whatever later rules match; and the message
    "403 Forbidden: does not have access" with status 403 is classified as
    Permission, not retryable. *)
Theorem classify_first_match_wins (lower : string -> string) (e : goerror)
    (status : Z) (before after : list rule) (r : rule) :
  spec_rules = (before ++ r :: after)%list ->
  rule_matches r (lower (Error e)) status = true ->
  Forall (fun r' => rule_matches r' (lower (Error e)) status = false) before ->
  (exists a, ClassifyError lower (Some e) status = Some a
             /\ Type' a = first_match spec_rules (lower (Error e)) status
             /\ Type' a = rule_kind r)
  /\ map rule_kind spec_rules
     = [ErrorTypeRateLimit; ErrorTypePermission; ErrorTypeValidation;
        ErrorTypeConflict; ErrorTypeRetryable]
  /\ (exists a,
        ClassifyError ascii_ToLower
          (Some (PlainError "403 Forbidden: does not have access" None)) 403 = Some a
        /\ Type' a = ErrorTypePermission /\ Retryable a = false).
Proof.
  intros Hsplit Hr Hbefore. split; [|split].
  - destruct (ClassifyError_first_match lower e status) as (a & Ha & Hkind & _).
    exists a. split; [exact Ha|]. split; [exact Hkind|].
    rewrite Hkind. unfold spec_kind. rewrite Hsplit.
    now apply first_match_earliest.
  - reflexivity.
  - eexists. split; [vm_compute; reflexivity|]. split; reflexivity.
Qed.

(** A 403 whose message also contains "invalid": the permission rule and
    the validation rule both match, and the earlier one decides. *)
Lemma classify_first_match_wins_witness :
  (exists validation, In validation spec_rules
     /\ rule_kind validation = ErrorTypeValidation
     /\ rule_matches validation (ascii_ToLower (Error forbidden_and_invalid)) 403 = true)
  /\ exists a, ClassifyError ascii_ToLower (Some forbidden_and_invalid) 403 = Some a
              /\ Type' a = ErrorTypePermission.
Proof.
  split.
  - eexists. split; [right; right; left; reflexivity|]. split; reflexivity.
  - destruct (classify_first_match_wins ascii_ToLower forbidden_and_invalid 403
                [rate_limit_rule] (skipn 2 spec_rules) permission_rule)
      as ((a & Ha & _ & Hk) & _).
    + reflexivity.
    + reflexivity.
    + constructor; [reflexivity|constructor].
    + exists a. split; assumption.
Defined.

(** C6 (as amended). A failure with status 429, or whose message contains
    "rate limit" or "rate_limited", is classified as RateLimit and
    retryable, and its retryAfter is the fixed sixty seconds whatever
    duration the message names; "rate_limited" with status 429 gets sixty
    seconds. *)
Theorem rate_limit_outcome (lower : string -> string) (e : goerror) (status : Z) :
  status = 429 \/ Contains (lower (Error e)) "rate limit" = true
    \/ Contains (lower (Error e)) "rate_limited" = true ->
  (exists a, ClassifyError lower (Some e) status = Some a
     /\ Type' a = ErrorTypeRateLimit
     /\ Retryable a = true
     /\ RetryAfter a = 60 * Second)
  /\ (exists a,
        ClassifyError ascii_ToLower (Some (PlainError "rate_limited" None)) 429 = Some a
        /\ Type' a = ErrorTypeRateLimit /\ Retryable a = true
        /\ RetryAfter a = 60 * Second).
Proof.
  intros H. split.
  - eexists. split.
    + apply ClassifyError_rate_limit.
      destruct H as [-> | [-> | ->]]; simpl; rewrite ?orb_true_r; reflexivity.
    + repeat split. simpl. apply extractRetryAfter_constant.
  - eexists. split; [vm_compute; reflexivity|]. repeat split.
Qed.

Lemma rate_limit_outcome_witness :
  exists a,
    ClassifyError ascii_ToLower
      (Some (PlainError "API rate limit exceeded, retry after 60 seconds" None)) 0 = Some a
    /\ Type' a = ErrorTypeRateLimit /\ Retryable a = true
    /\ RetryAfter a = 60 * Second.
Proof.
  destruct (rate_limit_outcome ascii_ToLower
              (PlainError "API rate limit exceeded, retry after 60 seconds" None) 0)
    as ((a & Ha & Hk & Hr & H60) & _).
  - right; left; reflexivity.
  - exists a. repeat split; assumption.
Defined.

(** C6 as stated fails: the message of this rate-limit failure holds the
    duration token "30 seconds", and the retryAfter of its classification
    is sixty seconds, not thirty. *)
Lemma rate_limit_ignores_duration_token :
  Contains (ascii_ToLower (Error retry_after_thirty)) "rate limit" = true
  /\ spec_duration_token (Error retry_after_thirty) = Some (30 * Second)
  /\ exists a,
       ClassifyError ascii_ToLower (Some retry_after_thirty) 0 = Some a
       /\ Type' a = ErrorTypeRateLimit
       /\ RetryAfter a = 60 * Second
       /\ Some (RetryAfter a) <> spec_duration_token (Error retry_after_thirty).
Proof.
  split; [reflexivity|]. split; [reflexivity|].
  eexists. split; [reflexivity|]. split; [reflexivity|]. split; [reflexivity|].
  discriminate.
Qed.

(** C10. In every result of the classifier the retryable flag is set
    exactly for the kinds RateLimit and Transient ([ErrorTypeRetryable]);
    Permission, Validation, Conflict and Unknown results are not
    retryable. *)
Theorem classifier_retryable_iff_kind (lower : string -> string) (err : error)
    (status : Z) (a : APIError) :
  ClassifyError lower err status = Some a ->
  (Retryable a = true <-> Type' a = ErrorTypeRateLimit \/ Type' a = ErrorTypeRetryable)
  /\ (Type' a = ErrorTypePermission \/ Type' a = ErrorTypeValidation
      \/ Type' a = ErrorTypeConflict \/ Type' a = ErrorTypeUnknown ->
      Retryable a = false).
Proof.
  intros Ha. destruct err as [e|]; [|discriminate].
  destruct (ClassifyError_first_match lower e status) as (a' & Ha' & _ & Hflag).
  rewrite Ha in Ha'. injection Ha' as <-.
  rewrite Hflag. destruct (Type' a); simpl; split;
    try split; intros; try reflexivity; try discriminate;
    intuition (auto; discriminate).
Qed.

Lemma classifier_retryable_iff_kind_witness :
  ClassifyError ascii_ToLower (Some connection_reset) 0
  = Some (RetryableError "connection reset by peer" (Some connection_reset))
  /\ (Retryable (RetryableError "connection reset by peer" (Some connection_reset)) = true
      <-> Type' (RetryableError "connection reset by peer" (Some connection_reset))
            = ErrorTypeRateLimit
          \/ Type' (RetryableError "connection reset by peer" (Some connection_reset))
            = ErrorTypeRetryable).
Proof.
  split; [reflexivity|].
  exact (proj1 (classifier_retryable_iff_kind ascii_ToLower (Some connection_reset) 0
                  (RetryableError "connection reset by peer" (Some connection_reset))
                  eq_refl)).
Defined.

(** The constructors of types.go obey the same rule. *)
Lemma constructors_retryable_iff_kind (msg : string) (err : error) (d : Z)
    (fe : option (gmap string string)) :
  Forall (fun a : APIError => Retryable a = retryable_kind (Type' a))
    [RetryableError msg err; PermissionError msg err; ValidationError msg fe;
     RateLimitError msg d; ConflictError msg err].
Proof. repeat constructor. Qed.

(** ** The retry executor *)



Section ExecutorFacts.

Variable fn : nat -> error.
Variable rand_raw : nat -> Z.
Variable pow_out_of_range : Z -> Z.

(** [calculateDelay] invokes nothing and writes nothing. *)
Lemma calculateDelay_frame (attempt : Z) (config : RetryConfig) (err : error)
    (st st' : exec_state) (o : outcome Z) :
  calculateDelay rand_raw pow_out_of_range attempt config err st = (o, st') ->
  calls st' = calls st /\ trace st' = trace st.
Proof.
  unfold calculateDelay, Int63n.
  repeat match goal with
         | |- context [if ?c then _ else _] => destruct c
         end; intros [= <- <-]; split; reflexivity.
Qed.

(** It returns exactly when [delay_defined] says so. *)
Lemma calculateDelay_returns (attempt : Z) (config : RetryConfig) (err : error)
    (st : exec_state) :
  delay_defined pow_out_of_range attempt config err = true ->
  exists d st', calculateDelay rand_raw pow_out_of_range attempt config err st
                = (Returned d, st').
Proof.
  unfold delay_defined, calculateDelay, Int63n.
  destruct (GetRetryAfter err >? 0); [intros _; eauto|].
  destruct (Jitter config); simpl; [|intros _; eauto].
  set (delay := if _ >? MaxDelay config then _ else _).
  intros H. apply Z.ltb_lt in H.
  destruct (Z.quot delay 10 <=? 0) eqn:E; [apply Z.leb_le in E; lia|eauto].
Qed.

Lemma calculateDelay_panics (attempt : Z) (config : RetryConfig) (err : error)
    (st : exec_state) :
  delay_defined pow_out_of_range attempt config err = false ->
  calculateDelay rand_raw pow_out_of_range attempt config err st = (Panicked, st).
Proof.
  unfold delay_defined, calculateDelay, Int63n.
  destruct (GetRetryAfter err >? 0); [discriminate|].
  destruct (Jitter config); simpl; [|discriminate].
  set (delay := if _ >? MaxDelay config then _ else _).
  intros H. apply Z.ltb_ge in H.
  destruct (Z.quot delay 10 <=? 0) eqn:E; [reflexivity|apply Z.leb_gt in E; lia].
Qed.

Lemma retryable_is_error (err : error) :
  IsRetryableError err = true -> exists e, err = Some e.
Proof. destruct err; [eauto|discriminate]. Qed.

(** A retryable failure at every invocation uses up the loop. *)
Lemma Retry_loop_exhausts (config : RetryConfig) :
  (forall k, IsRetryableError (fn k) = true) ->
  forall (n : nat) (attempt : Z) (lastErr : error) (st : exec_state),
    attempt + Z.of_nat n = MaxAttempts config ->
    (forall a k, attempt <= a < MaxAttempts config ->
                 delay_defined pow_out_of_range a config (fn k) = true) ->
    exists st',
      Retry_loop fn rand_raw pow_out_of_range (S n) attempt config lastErr st
      = (Returned (fn (calls st + n)%nat), st')
      /\ calls st' = (calls st + S n)%nat.
Proof.
  intros Hretry. induction n as [|n IH]; intros attempt lastErr st Hn Hdelay.
  - rewrite Nat.add_0_r. cbn [Retry_loop].
    pose proof (Hretry (calls st)) as Hr.
    destruct (fn (calls st)) as [e|] eqn:He; [|discriminate].
    rewrite Hr. cbn [negb].
    replace (attempt =? MaxAttempts config) with true
      by (symmetry; apply Z.eqb_eq; lia).
    eexists. split; [reflexivity|]. simpl. lia.
  - remember (S n) as m eqn:Hm. cbn [Retry_loop].
    pose proof (Hretry (calls st)) as Hr.
    pose proof (Hdelay attempt (calls st)) as Hd0.
    destruct (fn (calls st)) as [e|] eqn:He; [|discriminate].
    rewrite Hr. cbn [negb].
    replace (attempt =? MaxAttempts config) with false
      by (symmetry; apply Z.eqb_neq; lia).
    match goal with
    | |- context [calculateDelay _ _ attempt config ?err ?s] =>
      destruct (calculateDelay_returns attempt config err s) as (d & st1 & Hd);
        [apply Hd0; lia|];
        rewrite Hd; destruct (calculateDelay_frame _ _ _ _ _ _ Hd) as [Hc _]
    end.
    simpl in Hc.
    match goal with
    | |- context [Retry_loop _ _ _ m ?a config ?l ?s] =>
      destruct (IH a l s) as (st' & Hrun & Hcalls);
        [lia | intros; apply Hdelay; lia |]
    end.
    subst m.
    rewrite Hrun. exists st'. split.
    + f_equal. f_equal. f_equal. destruct (OnRetry config); simpl; rewrite Hc; lia.
    + rewrite Hcalls. destruct (OnRetry config); simpl; rewrite Hc; lia.
Qed.

Variable cancel_ready : nat -> bool.
Variable cancel_wins_wait : nat -> Z -> bool.

(** The same for the cancellable executor while no cancellation is seen. *)
Lemma RetryWithContext_loop_exhausts (config : RetryConfig) :
  (forall k, IsRetryableError (fn k) = true) ->
  (forall k, cancel_ready k = false) ->
  (forall k d, cancel_wins_wait k d = false) ->
  forall (n : nat) (attempt : Z) (lastErr : error) (st : exec_state),
    attempt + Z.of_nat n = MaxAttempts config ->
    (forall a k, attempt <= a < MaxAttempts config ->
                 delay_defined pow_out_of_range a config (fn k) = true) ->
    exists st',
      RetryWithContext_loop fn rand_raw pow_out_of_range cancel_ready
        cancel_wins_wait (S n) attempt config lastErr st
      = (Returned (fn (calls st + n)%nat), st')
      /\ calls st' = (calls st + S n)%nat.
Proof.
  intros Hretry Hready Hwins.
  induction n as [|n IH]; intros attempt lastErr st Hn Hdelay.
  - rewrite Nat.add_0_r. cbn [RetryWithContext_loop]. rewrite Hready.
    pose proof (Hretry (calls st)) as Hr.
    destruct (fn (calls st)) as [e|] eqn:He; [|discriminate].
    rewrite Hr. cbn [negb].
    replace (attempt =? MaxAttempts config) with true
      by (symmetry; apply Z.eqb_eq; lia).
    eexists. split; [reflexivity|]. simpl. lia.
  - remember (S n) as m eqn:Hm. cbn [RetryWithContext_loop]. rewrite Hready.
    pose proof (Hretry (calls st)) as Hr.
    pose proof (Hdelay attempt (calls st)) as Hd0.
    destruct (fn (calls st)) as [e|] eqn:He; [|discriminate].
    rewrite Hr. cbn [negb].
    replace (attempt =? MaxAttempts config) with false
      by (symmetry; apply Z.eqb_neq; lia).
    match goal with
    | |- context [calculateDelay _ _ attempt config ?err ?s] =>
      destruct (calculateDelay_returns attempt config err s) as (d & st1 & Hd);
        [apply Hd0; lia|];
        rewrite Hd; destruct (calculateDelay_frame _ _ _ _ _ _ Hd) as [Hc _]
    end.
    simpl in Hc. rewrite Hwins.
    match goal with
    | |- context [RetryWithContext_loop _ _ _ _ _ m ?a config ?l ?s] =>
      destruct (IH a l s) as (st' & Hrun & Hcalls);
        [lia | intros; apply Hdelay; lia |]
    end.
    subst m.
    rewrite Hrun. exists st'. split.
    + f_equal. f_equal. f_equal. destruct (OnRetry config); simpl; rewrite Hc; lia.
    + rewrite Hcalls. destruct (OnRetry config); simpl; rewrite Hc; lia.
Qed.


End ExecutorFacts.

(** With a retryable failure at every invocation, a budget of at least one
    attempt and every delay computation returning, [Retry] invokes the
    operation [MaxAttempts] times and returns the last failure. *)
Lemma Retry_exhausts_budget (fn : nat -> error) (rand_raw : nat -> Z)
    (pow_out_of_range : Z -> Z) (config : RetryConfig) :
  1 <= MaxAttempts config ->
  (forall k, IsRetryableError (fn k) = true) ->
  (forall a k, 1 <= a < MaxAttempts config ->
               delay_defined pow_out_of_range a config (fn k) = true) ->
  exists st',
    Retry fn rand_raw pow_out_of_range (Some config) start
    = (Returned (fn (Z.to_nat (MaxAttempts config) - 1)%nat), st')
    /\ calls st' = Z.to_nat (MaxAttempts config).
Proof.
  intros HN Hretry Hdelay. unfold Retry.
  destruct (Z.to_nat (MaxAttempts config)) as [|n] eqn:En; [lia|].
  destruct (Retry_loop_exhausts fn rand_raw pow_out_of_range config Hretry
              n 1 None start) as (st' & Hrun & Hcalls); [lia|exact Hdelay|].
  exists st'. rewrite Hrun. simpl in *. rewrite Hcalls.
  split; [do 3 f_equal; lia|reflexivity].
Qed.

(** The same for [RetryWithContext] when no cancellation is signalled. *)
Lemma RetryWithContext_exhausts_budget (fn : nat -> error) (rand_raw : nat -> Z)
    (pow_out_of_range : Z -> Z) (config : RetryConfig) :
  1 <= MaxAttempts config ->
  (forall k, IsRetryableError (fn k) = true) ->
  (forall a k, 1 <= a < MaxAttempts config ->
               delay_defined pow_out_of_range a config (fn k) = true) ->
  exists st',
    RetryWithContext fn rand_raw pow_out_of_range (fun _ => false) (fun _ _ => false)
      (Some config) start
    = (Returned (fn (Z.to_nat (MaxAttempts config) - 1)%nat), st')
    /\ calls st' = Z.to_nat (MaxAttempts config).
Proof.
  intros HN Hretry Hdelay. unfold RetryWithContext.
  destruct (Z.to_nat (MaxAttempts config)) as [|n] eqn:En; [lia|].
  destruct (RetryWithContext_loop_exhausts fn rand_raw pow_out_of_range
              (fun _ => false) (fun _ _ => false) config Hretry
              (fun _ => eq_refl) (fun _ _ => eq_refl) n 1 None start)
    as (st' & Hrun & Hcalls); [lia|exact Hdelay|].
  exists st'. rewrite Hrun. simpl in *. rewrite Hcalls.
  split; [do 3 f_equal; lia|reflexivity].
Qed.

(** C1. An operation that fails with a retryable error at every
    invocation is to be invoked [MaxAttempts] times.  Under the policy
    [&RetryConfig{MaxAttempts: 2, Jitter: true}] the executor invokes it
    once and then panics: the delay before the retry is zero and the
    jitter draw [rand.Int63n(0)] does not return.  Both executors do so,
    whatever the random source. *)
Theorem retry_panics_on_jitter_of_short_delay (rand_raw : nat -> Z)
    (pow_out_of_range : Z -> Z) :
  ApiError <$> ClassifyError ascii_ToLower (Some (PlainError "temporary failure" None)) 0
  = Some transient_failure
  /\ IsRetryableError (Some transient_failure) = true
  /\ MaxAttempts zero_delay_jitter = 2
  /\ Retry (always transient_failure) rand_raw pow_out_of_range
       (Some zero_delay_jitter) start
     = (Panicked, mkExec 1 0 [EvInvoke])
  /\ RetryWithContext (always transient_failure) rand_raw pow_out_of_range
       (fun _ => false) (fun _ _ => false) (Some zero_delay_jitter) start
     = (Panicked, mkExec 1 0 [EvInvoke]).
Proof. repeat split. Qed.

(** C2. When the first failure is not retryable, [Retry] invokes the
    operation once and returns that failure at once, whatever the budget:
    the run consists of the invocation and the log line, with no wait. *)
Theorem non_retryable_fails_fast (fn : nat -> error) (rand_raw : nat -> Z)
    (pow_out_of_range : Z -> Z) (config : option RetryConfig) (e : goerror) :
  1 <= MaxAttempts (match config with Some c => c | None => DefaultRetryConfig end) ->
  fn 0%nat = Some e ->
  IsRetryableError (Some e) = false ->
  let '(res, st) := Retry fn rand_raw pow_out_of_range config start in
  res = Returned (Some e)
  /\ calls st = 1%nat
  /\ trace st = [EvInvoke; EvStderr (LogNonRetryable e)]
  /\ existsb is_wait (trace st) = false.
Proof.
  intros HN Hfn Hnr. unfold Retry.
  destruct (Z.to_nat (MaxAttempts _)) as [|n] eqn:En; [lia|].
  cbn [Retry_loop start calls]. rewrite Hfn, Hnr. simpl. repeat split.
Qed.

Lemma non_retryable_fails_fast_witness :
  fst (Retry (always permission_denied) (fun _ => 0) (fun _ => 0)
         (Some DefaultRetryConfig) start)
  = Returned (Some permission_denied)
  /\ calls (snd (Retry (always permission_denied) (fun _ => 0) (fun _ => 0)
                   (Some DefaultRetryConfig) start)) = 1%nat.
Proof.
  pose proof (non_retryable_fails_fast (always permission_denied) (fun _ => 0)
                (fun _ => 0) (Some DefaultRetryConfig) permission_denied) as H.
  destruct (Retry _ _ _ _ _) as [res st].
  destruct H as (Hres & Hcalls & _); [simpl; lia | reflexivity | reflexivity |].
  split; assumption.
Defined.

(** The cancellable executor does the same when no cancellation is
    pending at its first check. *)
Lemma with_context_non_retryable_fails_fast (fn : nat -> error) (rand_raw : nat -> Z)
    (pow_out_of_range : Z -> Z) (cancel_ready : nat -> bool)
    (cancel_wins_wait : nat -> Z -> bool) (config : option RetryConfig) (e : goerror) :
  1 <= MaxAttempts (match config with Some c => c | None => DefaultRetryConfig end) ->
  cancel_ready 0%nat = false ->
  fn 0%nat = Some e ->
  IsRetryableError (Some e) = false ->
  RetryWithContext fn rand_raw pow_out_of_range cancel_ready cancel_wins_wait config start
  = (Returned (Some e), mkExec 1 0 [EvInvoke]).
Proof.
  intros HN Hready Hfn Hnr. unfold RetryWithContext.
  destruct (Z.to_nat (MaxAttempts _)) as [|n] eqn:En; [lia|].
  cbn [RetryWithContext_loop start calls]. now rewrite Hready, Hfn, Hnr.
Qed.

(** C3. With a base delay of 1s, a cap of 16s, no jitter and a failure
    that carries no retryAfter, the delays computed after attempts 1 to 6
    are 1s, 2s, 4s, 8s, 16s and 16s. *)
Theorem backoff_delays_double_and_cap (rand_raw : nat -> Z)
    (pow_out_of_range : Z -> Z) (maxAttempts : Z) (onRetry : bool)
    (err : error) (st : exec_state) :
  GetRetryAfter err <= 0 ->
  map (fun attempt =>
         calculateDelay rand_raw pow_out_of_range attempt
           (no_jitter_policy maxAttempts onRetry) err st)
      [1; 2; 3; 4; 5; 6]
  = map (fun seconds => (Returned (seconds * Second), st)) [1; 2; 4; 8; 16; 16].
Proof.
  intros H. unfold calculateDelay.
  replace (GetRetryAfter err >? 0) with false by (symmetry; rewrite Z.gtb_ltb; apply Z.ltb_ge; lia).
  reflexivity.
Qed.

Lemma backoff_delays_double_and_cap_witness :
  map (fun attempt =>
         calculateDelay (fun _ => 0) (fun _ => 0) attempt (no_jitter_policy 6 false)
           (Some transient_failure) start)
      [1; 2; 3; 4; 5; 6]
  = map (fun seconds => (Returned (seconds * Second), start)) [1; 2; 4; 8; 16; 16].
Proof.
  apply (backoff_delays_double_and_cap (fun _ => 0) (fun _ => 0) 6 false
           (Some transient_failure) start).
  simpl. lia.
Defined.




(** ** The view state machine *)

Section UIFacts.

Context {X : Externals}.

Lemma find_default_some (repos : list Repository) (id : string) :
  (exists repo, In repo repos /\ Repository_ID repo = id) ->
  exists repo, List.find (fun repo => String.eqb (Repository_ID repo) id) repos = Some repo
               /\ In repo repos /\ Repository_ID repo = id.
Proof.
  intros (repo & Hin & Hid).
  destruct (List.find _ repos) as [found|] eqn:E.
  - apply List.find_some in E as [Hf Heq]. apply String.eqb_eq in Heq. eauto.
  - apply (List.find_none _ _ E) in Hin. apply String.eqb_neq in Hin. contradiction.
Qed.

Lemma find_default_none (repos : list Repository) (id : string) :
  (forall repo, In repo repos -> Repository_ID repo <> id) ->
  List.find (fun repo => String.eqb (Repository_ID repo) id) repos = None.
Proof.
  intros H. destruct (List.find _ repos) as [found|] eqn:E; [|reflexivity].
  apply List.find_some in E as [Hf Heq]. apply String.eqb_eq in Heq.
  now apply H in Hf.
Qed.



(** X17. The command [saveItem] reports a partial success only after the
    draft was created and the update that assigns the user failed. *)
Lemma saveItem_partial_success (client : Remote) (msg : SaveItemMsg)
    (p : PartialSuccessMsg) :
  run_saveItem client msg = Returned (MsgPartialSuccess p) ->
  si_IsNewItem msg = true
  /\ exists item ids e,
       CreateDraftIssue client
         (mkCreateItemInput (Project_ID (si_Project msg)) "" (si_Title msg) (si_Body msg))
       = Ok item
       /\ UpdateDraftIssue client (Item_ContentID item) (si_Title msg) (si_Body msg) ids
          = Failed e
       /\ ps_WarningError p = Some e.
Proof.
  unfold run_saveItem, create_new, update_existing.
  destruct (si_IsNewItem msg); intros H.
  - split; [reflexivity|].
    destruct (negb _); [destruct (GetUserNodeID _ _); [|discriminate]|];
      (destruct (CreateDraftIssue _ _) as [item|] eqn:Ec; [|discriminate]);
      (destruct (0 <? _); [|discriminate]);
      (destruct (UpdateDraftIssue _ _ _ _ _) as [|e] eqn:Eu; [discriminate|]);
      exists item; eexists; exists e; (split; [reflexivity|]); (split; [exact Eu|]);
      destruct e; injection H as <-; reflexivity.
  - exfalso.
    destruct (negb _); [destruct (GetUserNodeID _ _); [|discriminate]|];
      (destruct (si_Item msg); [|discriminate]);
      destruct (UpdateDraftIssue _ _ _ _ _); discriminate.
Qed.

End UIFacts.

Lemma saveItem_partial_success_witness :
  exists p item ids e,
    run_saveItem unassignable_remote
      (mkSaveItemMsg demo_project None "Fix login" "" "octo" true)
    = Returned (MsgPartialSuccess p)
    /\ CreateDraftIssue unassignable_remote
         (mkCreateItemInput "PVT_1" "" "Fix login" "") = Ok item
    /\ UpdateDraftIssue unassignable_remote (Item_ContentID item) "Fix login" "" ids
       = Failed e
    /\ ps_WarningError p = Some e.
Proof.
  eexists.
  destruct (saveItem_partial_success unassignable_remote
              (mkSaveItemMsg demo_project None "Fix login" "" "octo" true)
              _ eq_refl) as (_ & item & ids & e & Hc & Hu & Hw).
  exists item, ids, e. split; [reflexivity|]. split; [exact Hc|]. split; assumption.
Defined.


(** What the handler of [PartialSuccessMsg] does to the model: it clears
    the error value, records the warning (the warning sign and the
    explanatory message) in the message field, keeps the active view, and
    schedules the reload of the project items that an [ItemSavedMsg]
    schedules. *)
Theorem partial_success_warns_and_refreshes {X : Externals} (m : Model)
    (msg : PartialSuccessMsg) (w : World) :
  let '(m', cmd, w') := Update m (MsgPartialSuccess msg) w in
  cmd = Some (loadProjectItems (apiClient m) (ie_project (itemEditor m)))
  /\ cmd = snd (fst (Update m MsgItemSaved w))
  /\ currentView m' = currentView m
  /\ message m' = icon_warning +:+ ps_Message msg
  /\ err m' = None
  /\ error_overlay m' = false
  /\ w' = w.
Proof. repeat split. Qed.

(** In the item editor, after a [PartialSuccessMsg], the error overlay is
    down and the screen rendered is the editor. *)
Lemma partial_success_raises_no_error_overlay :
  error_overlay (fst (fst (Update demo_model (MsgPartialSuccess partial_warning)
                             (demo_world "R_a")))) <> true
  /\ View (fst (fst (Update demo_model (MsgPartialSuccess partial_warning)
                       (demo_world "R_a")))) = ViewScreen viewItemEditor.
Proof. split; [discriminate|reflexivity]. Qed.

(** C7. A [PartialSuccessMsg] is to be surfaced through the error overlay
    with its explanatory message, and to trigger the reload a full success
    triggers.  The reload is scheduled, the same as for [ItemSavedMsg];
    but the handler clears both the loading flag and the error value, and
    [View] shows the message field only while loading or with an error
    set: whatever the model and the message, the screen after the handler
    is the sub-view of the active view, with neither the overlay nor the
    warning on it. *)
Theorem partial_success_warning_is_not_rendered {X : Externals} (m : Model)
    (msg : PartialSuccessMsg) (w : World) :
  let '(m', cmd, w') := Update m (MsgPartialSuccess msg) w in
  message m' = icon_warning +:+ ps_Message msg
  /\ loading m' = false
  /\ err m' = None
  /\ error_overlay m' = false
  /\ View m' = ViewScreen (currentView m)
  /\ cmd = snd (fst (Update m MsgItemSaved w))
  /\ cmd = Some (loadProjectItems (apiClient m) (ie_project (itemEditor m))).
Proof. repeat split. Qed.



(** C9. On an [ErrorMsg] the state machine keeps the active view and
    changes the error value, the message and the loading flag only: every
    other field of the model is as before, no command is scheduled and
    nothing outside the model is touched; the overlay is up when the
    message carries an error. *)
Theorem error_message_only_sets_overlay {X : Externals} (m : Model) (Err : error)
    (w : World) :
  let '(m', cmd, w') := Update m (MsgError Err) w in
  m' = set_loading false (set_message (message m') (set_err (err m') m))
  /\ currentView m' = currentView m
  /\ (apiClient m', config m', username m', orgs m', currentOwner m', currentIsUser m')
     = (apiClient m, config m, username m, orgs m, currentOwner m, currentIsUser m)
  /\ (ownerSelector m', projectList m', projectDetail m', itemDetail m', itemEditor m',
      projectCreator m', repositorySelector m')
     = (ownerSelector m, projectList m, projectDetail m, itemDetail m, itemEditor m,
        projectCreator m, repositorySelector m)
  /\ (width m', height m', debugMode m') = (width m, height m, debugMode m)
  /\ loading m' = false
  /\ error_overlay m' = match Err with Some _ => true | None => false end
  /\ cmd = None
  /\ w' = w.
Proof.
  unfold Update. destruct Err as [[msg cause|apiErr]|]; repeat split.
Qed.

(** * Further properties *)

(** ** The retry executor *)

Lemma sleeps_app (t1 t2 : list event) :
  sleeps (t1 ++ t2) = (sleeps t1 + sleeps t2)%nat.
Proof. unfold sleeps. now rewrite List.filter_app, length_app. Qed.

Section ExecutorBounds.

Variable fn : nat -> error.
Variable rand_raw : nat -> Z.
Variable pow_out_of_range : Z -> Z.
Variable cancel_ready : nat -> bool.
Variable cancel_wins_wait : nat -> Z -> bool.

Lemma Retry_loop_bounded (config : RetryConfig) :
  forall (remaining : nat) (attempt : Z) (lastErr : error) (st st' : exec_state)
         (o : outcome error),
    Retry_loop fn rand_raw pow_out_of_range remaining attempt config lastErr st = (o, st') ->
    (calls st <= calls st' <= calls st + remaining)%nat
    /\ match o with
       | Returned r =>
         (calls st' = calls st /\ r = lastErr)
         \/ (calls st < calls st' /\ r = fn (calls st' - 1))%nat
       | Panicked => True
       end.
Proof.
  induction remaining as [|remaining IH]; intros attempt lastErr st st' o.
  - cbn [Retry_loop]. intros [= <- <-]. split; [lia|]. now left.
  - cbn [Retry_loop].
    destruct (fn (calls st)) as [e|] eqn:He.
    2:{ destruct (attempt >? 1); intros [= <- <-]; simpl;
          (split; [lia|]); right; (split; [lia|]);
          now rewrite Nat.sub_0_r, He. }
    destruct (negb (IsRetryableError (Some e))).
    { intros [= <- <-]. simpl. split; [lia|]. right. split; [lia|].
      now rewrite Nat.sub_0_r, He. }
    destruct (attempt =? MaxAttempts config).
    { intros [= <- <-]. simpl. split; [lia|]. right. split; [lia|].
      now rewrite Nat.sub_0_r, He. }
    match goal with
    | |- context [calculateDelay _ _ attempt config ?err ?s] =>
      destruct (calculateDelay rand_raw pow_out_of_range attempt config err s)
        as [[d|] st1] eqn:Hd;
        destruct (calculateDelay_frame _ _ _ _ _ _ _ _ Hd) as [Hc _]
    end; simpl in Hc.
    2:{ intros [= <- <-]. split; [lia|exact I]. }
    intros Hrun. apply IH in Hrun as [Hb Hr].
    assert (Hs : calls (emit (EvSleep d)
                          (if OnRetry config then emit (EvOnRetry attempt e d) st1 else st1))
                 = S (calls st)).
    { destruct (OnRetry config); simpl; exact Hc. }
    rewrite Hs in Hb. split; [lia|].
    destruct o as [r|]; [|exact I]. right. rewrite Hs in Hr.
    destruct Hr as [[Heq ->]|[Hlt ->]]; (split; [lia|]).
    + rewrite Heq. simpl. now rewrite Nat.sub_0_r, He.
    + reflexivity.
Qed.

(** The cancellable loop: the bound on the invocations, and every
    invocation follows a check that found no cancel signal. *)
Lemma RetryWithContext_loop_bounded (config : RetryConfig) :
  forall (remaining : nat) (attempt : Z) (lastErr : error) (st st' : exec_state)
         (o : outcome error),
    RetryWithContext_loop fn rand_raw pow_out_of_range cancel_ready cancel_wins_wait
      remaining attempt config lastErr st = (o, st') ->
    (calls st <= calls st' <= calls st + remaining)%nat
    /\ forall k, (calls st <= k < calls st')%nat -> cancel_ready k = false.
Proof.
  induction remaining as [|remaining IH]; intros attempt lastErr st st' o.
  - cbn [RetryWithContext_loop]. intros [= <- <-]. split; [lia|]. intros; lia.
  - cbn [RetryWithContext_loop].
    destruct (cancel_ready (calls st)) eqn:Hready.
    { intros [= <- <-]. simpl. split; [lia|]. intros; lia. }
    assert (Hone : forall k, (calls st <= k < S (calls st))%nat -> cancel_ready k = false).
    { intros k Hk. now replace k with (calls st) by lia. }
    destruct (fn (calls st)) as [e|] eqn:He.
    2:{ destruct (attempt >? 1); intros [= <- <-]; simpl; (split; [lia|exact Hone]). }
    destruct (negb (IsRetryableError (Some e))).
    { intros [= <- <-]. simpl. split; [lia|exact Hone]. }
    destruct (attempt =? MaxAttempts config).
    { intros [= <- <-]. simpl. split; [lia|exact Hone]. }
    match goal with
    | |- context [calculateDelay _ _ attempt config ?err ?s] =>
      destruct (calculateDelay rand_raw pow_out_of_range attempt config err s)
        as [[d|] st1] eqn:Hd;
        destruct (calculateDelay_frame _ _ _ _ _ _ _ _ Hd) as [Hc _]
    end; simpl in Hc.
    2:{ intros [= <- <-]. rewrite Hc. split; [lia|exact Hone]. }
    set (st2 := if OnRetry config then emit (EvOnRetry attempt e d) st1 else st1).
    assert (Hc2 : calls st2 = S (calls st)).
    { unfold st2. destruct (OnRetry config); simpl; exact Hc. }
    destruct (cancel_wins_wait (calls st2) d).
    { intros [= <- <-]. simpl. rewrite Hc2. split; [lia|exact Hone]. }
    intros Hrun. apply IH in Hrun as [Hb Hchecked]. simpl in Hb, Hchecked.
    rewrite Hc2 in Hb, Hchecked. split; [lia|].
    intros k Hk. destruct (Nat.eq_dec k (calls st)) as [->|Hne]; [exact Hready|].
    apply Hchecked. lia.
Qed.

(** The loop returns when every delay it may compute is defined. *)
Lemma Retry_loop_returns (config : RetryConfig) :
  forall (remaining : nat) (attempt : Z) (lastErr : error) (st : exec_state),
    (forall a err, attempt <= a < MaxAttempts config ->
                   delay_defined pow_out_of_range a config err = true) ->
    (remaining <= Z.to_nat (MaxAttempts config - attempt + 1))%nat ->
    exists r st',
      Retry_loop fn rand_raw pow_out_of_range remaining attempt config lastErr st
      = (Returned r, st').
Proof.
  induction remaining as [|remaining IH]; intros attempt lastErr st Hdef Hle.
  - cbn [Retry_loop]. eauto.
  - cbn [Retry_loop].
    destruct (fn (calls st)) as [e|]; [|eauto].
    destruct (negb (IsRetryableError (Some e))); [eauto|].
    destruct (attempt =? MaxAttempts config) eqn:Hlast; [eauto|].
    apply Z.eqb_neq in Hlast.
    match goal with
    | |- context [calculateDelay _ _ attempt config ?err ?s] =>
      destruct (calculateDelay_returns rand_raw pow_out_of_range attempt config err s)
        as (d & st1 & Hd); [apply Hdef; lia|]; rewrite Hd
    end.
    apply IH; [intros; apply Hdef; lia|lia].
Qed.

Lemma RetryWithContext_loop_returns (config : RetryConfig) :
  forall (remaining : nat) (attempt : Z) (lastErr : error) (st : exec_state),
    (forall a err, attempt <= a < MaxAttempts config ->
                   delay_defined pow_out_of_range a config err = true) ->
    (remaining <= Z.to_nat (MaxAttempts config - attempt + 1))%nat ->
    exists r st',
      RetryWithContext_loop fn rand_raw pow_out_of_range cancel_ready cancel_wins_wait
        remaining attempt config lastErr st
      = (Returned r, st').
Proof.
  induction remaining as [|remaining IH]; intros attempt lastErr st Hdef Hle.
  - cbn [RetryWithContext_loop]. eauto.
  - cbn [RetryWithContext_loop].
    destruct (cancel_ready (calls st)); [eauto|].
    destruct (fn (calls st)) as [e|]; [|eauto].
    destruct (negb (IsRetryableError (Some e))); [eauto|].
    destruct (attempt =? MaxAttempts config) eqn:Hlast; [eauto|].
    apply Z.eqb_neq in Hlast.
    match goal with
    | |- context [calculateDelay _ _ attempt config ?err ?s] =>
      destruct (calculateDelay_returns rand_raw pow_out_of_range attempt config err s)
        as (d & st1 & Hd); [apply Hdef; lia|]; rewrite Hd
    end.
    match goal with
    | |- context [cancel_wins_wait ?k d] => destruct (cancel_wins_wait k d); [eauto|]
    end.
    apply IH; [intros; apply Hdef; lia|lia].
Qed.

(** [calculateDelay] reads the state through the draw counter only. *)
Lemma calculateDelay_draws (attempt : Z) (config : RetryConfig) (err : error)
    (st1 st2 : exec_state) :
  draws st1 = draws st2 ->
  match calculateDelay rand_raw pow_out_of_range attempt config err st1,
        calculateDelay rand_raw pow_out_of_range attempt config err st2 with
  | (Returned d1, st1'), (Returned d2, st2') => d1 = d2 /\ draws st1' = draws st2'
  | (Panicked, _), (Panicked, _) => True
  | _, _ => False
  end.
Proof.
  intros Hdraws. unfold calculateDelay, Int63n. rewrite Hdraws.
  repeat match goal with
         | |- context [if ?c then _ else _] => destruct c
         end; simpl; auto.
Qed.

(** When the cancel channel stays silent the two executors go the same
    way. *)
Lemma executors_agree_loop (config : RetryConfig) :
  (forall k, cancel_ready k = false) ->
  (forall k d, cancel_wins_wait k d = false) ->
  forall (remaining : nat) (attempt : Z) (lastErr : error)
         (st1 st2 st1' st2' : exec_state) (o1 o2 : outcome error),
    calls st1 = calls st2 -> draws st1 = draws st2 ->
    Retry_loop fn rand_raw pow_out_of_range remaining attempt config lastErr st1
    = (o1, st1') ->
    RetryWithContext_loop fn rand_raw pow_out_of_range cancel_ready cancel_wins_wait
      remaining attempt config lastErr st2 = (o2, st2') ->
    o1 = o2 /\ calls st1' = calls st2' /\ draws st1' = draws st2'.
Proof.
  intros Hready Hwins.
  induction remaining as [|remaining IH];
    intros attempt lastErr st1 st2 st1' st2' o1 o2 Hcalls Hdraws.
  - cbn [Retry_loop RetryWithContext_loop]. intros [= <- <-] [= <- <-]. auto.
  - cbn [Retry_loop RetryWithContext_loop]. rewrite Hready, <- Hcalls.
    destruct (fn (calls st1)) as [e|].
    2:{ destruct (attempt >? 1); intros [= <- <-] [= <- <-]; simpl; auto. }
    destruct (negb (IsRetryableError (Some e))).
    { intros [= <- <-] [= <- <-]; simpl; auto. }
    destruct (attempt =? MaxAttempts config).
    { intros [= <- <-] [= <- <-]; simpl; auto. }
    match goal with
    | |- context [calculateDelay _ _ attempt config ?err ?s1] =>
      match goal with
      | |- context [RetryWithContext_loop _ _ _ _ _ _ _ _ _ _] => idtac
      end;
      pose proof (calculateDelay_draws attempt config err s1
                    (mkExec (S (calls st1)) (draws st2) (trace st2 ++ [EvInvoke]))
                    Hdraws) as Hsame;
      destruct (calculateDelay rand_raw pow_out_of_range attempt config err s1)
        as [[d1|] s1'] eqn:Hd1
    end;
    match goal with
    | |- context [calculateDelay _ _ attempt config ?err ?s2] =>
      destruct (calculateDelay rand_raw pow_out_of_range attempt config err s2)
        as [[d2|] s2'] eqn:Hd2
    end; try contradiction.
    2:{ intros [= <- <-] [= <- <-].
        destruct (calculateDelay_frame _ _ _ _ _ _ _ _ Hd1) as [-> _].
        destruct (calculateDelay_frame _ _ _ _ _ _ _ _ Hd2) as [-> _].
        unfold calculateDelay, Int63n in Hd1, Hd2.
        repeat match type of Hd1 with
               | context [if ?c then _ else _] => destruct c
               end; try discriminate;
          injection Hd1 as <-; injection Hd2 as <-; simpl; auto. }
    destruct Hsame as [<- Hdr].
    destruct (calculateDelay_frame _ _ _ _ _ _ _ _ Hd1) as [Hc1 _].
    destruct (calculateDelay_frame _ _ _ _ _ _ _ _ Hd2) as [Hc2 _].
    simpl in Hc1, Hc2. rewrite Hwins.
    apply IH.
    + destruct (OnRetry config); simpl; congruence.
    + destruct (OnRetry config); simpl; exact Hdr.
Qed.

(** Failures that are retryable, then a success: the loop sleeps once
    per failure and returns [nil] at the success. *)
Lemma Retry_loop_until_success (config : RetryConfig) :
  forall (n remaining : nat) (attempt : Z) (lastErr : error) (st : exec_state),
    (n < remaining)%nat ->
    attempt + Z.of_nat remaining - 1 = MaxAttempts config ->
    (forall k, (k < n)%nat -> IsRetryableError (fn (calls st + k)%nat) = true) ->
    fn (calls st + n)%nat = None ->
    (forall a err, attempt <= a < MaxAttempts config ->
                   delay_defined pow_out_of_range a config err = true) ->
    exists st',
      Retry_loop fn rand_raw pow_out_of_range remaining attempt config lastErr st
      = (Returned None, st')
      /\ calls st' = (calls st + n + 1)%nat
      /\ sleeps (trace st') = (sleeps (trace st) + n)%nat.
Proof.
  induction n as [|n IH]; intros remaining attempt lastErr st Hn Hmax Hretry Hok Hdef;
    (destruct remaining as [|remaining]; [lia|]); cbn [Retry_loop].
  - rewrite Nat.add_0_r in Hok. rewrite Hok.
    eexists. split; [reflexivity|].
    destruct (attempt >? 1); simpl; rewrite !sleeps_app; unfold sleeps; simpl; lia.
  - pose proof (Hretry 0%nat ltac:(lia)) as Hr. rewrite Nat.add_0_r in Hr.
    destruct (fn (calls st)) as [e|] eqn:He; [|discriminate].
    rewrite Hr. cbn [negb].
    replace (attempt =? MaxAttempts config) with false
      by (symmetry; apply Z.eqb_neq; lia).
    match goal with
    | |- context [calculateDelay _ _ attempt config ?err ?s] =>
      destruct (calculateDelay_returns rand_raw pow_out_of_range attempt config err s)
        as (d & st1 & Hd); [apply Hdef; lia|];
        rewrite Hd; destruct (calculateDelay_frame _ _ _ _ _ _ _ _ Hd) as [Hc Ht]
    end.
    simpl in Hc, Ht.
    set (st2 := emit (EvSleep d)
                  (if OnRetry config then emit (EvOnRetry attempt e d) st1 else st1)).
    assert (Hc2 : calls st2 = S (calls st)).
    { unfold st2. destruct (OnRetry config); simpl; exact Hc. }
    assert (Ht2 : sleeps (trace st2) = S (sleeps (trace st))).
    { unfold st2. destruct (OnRetry config); simpl; rewrite Ht, !sleeps_app;
        unfold sleeps; simpl; lia. }
    destruct (IH remaining (attempt + 1) (Some e) st2) as (st' & Hrun & Hcalls & Hsleeps).
    + lia.
    + lia.
    + intros k Hk. rewrite Hc2. replace (S (calls st) + k)%nat with (calls st + S k)%nat by lia.
      apply Hretry. lia.
    + rewrite Hc2. replace (S (calls st) + n)%nat with (calls st + S n)%nat by lia.
      exact Hok.
    + intros; apply Hdef; lia.
    + exists st'. split; [exact Hrun|]. rewrite Hcalls, Hsleeps, Hc2, Ht2. lia.
Qed.

End ExecutorBounds.

(** X1. Neither executor invokes the operation more often than the
    policy's [MaxAttempts], whatever the operation returns and however the
    run ends. *)
Theorem attempts_never_exceed_budget (fn : nat -> error) (rand_raw : nat -> Z)
    (pow_out_of_range : Z -> Z) (cancel_ready : nat -> bool)
    (cancel_wins_wait : nat -> Z -> bool) (config : option RetryConfig) :
  (calls (snd (Retry fn rand_raw pow_out_of_range config start))
   <= Z.to_nat (MaxAttempts (effective config)))%nat
  /\ (calls (snd (RetryWithContext fn rand_raw pow_out_of_range cancel_ready
                   cancel_wins_wait config start))
      <= Z.to_nat (MaxAttempts (effective config)))%nat.
Proof.
  unfold Retry, RetryWithContext, effective. split.
  - destruct (Retry_loop _ _ _ _ _ _ _ _) as [o st] eqn:E.
    apply Retry_loop_bounded in E as [Hb _]. simpl in *. lia.
  - destruct (RetryWithContext_loop _ _ _ _ _ _ _ _ _ _) as [o st] eqn:E.
    apply RetryWithContext_loop_bounded in E as [Hb _]. simpl in *. lia.
Qed.

(** X2. What [Retry] returns is the result of the last invocation of the
    operation, and [nil] when it made none. *)
Theorem retry_returns_last_result (fn : nat -> error) (rand_raw : nat -> Z)
    (pow_out_of_range : Z -> Z) (config : option RetryConfig)
    (r : error) (st : exec_state) :
  Retry fn rand_raw pow_out_of_range config start = (Returned r, st) ->
  r = match calls st with
      | O => None
      | S k => fn k
      end.
Proof.
  unfold Retry. intros E. apply Retry_loop_bounded in E as [_ Hr]. simpl in Hr.
  destruct Hr as [[-> ->]|[Hlt ->]]; [reflexivity|].
  destruct (calls st); [lia|]. simpl. now rewrite Nat.sub_0_r.
Qed.

Lemma retry_returns_last_result_witness :
  fst (Retry (flaky 2 transient_failure) (fun _ => 0) (fun _ => 0)
         (Some (no_jitter_policy 5 false)) start) = Returned None
  /\ calls (snd (Retry (flaky 2 transient_failure) (fun _ => 0) (fun _ => 0)
                   (Some (no_jitter_policy 5 false)) start)) = 3%nat
  /\ flaky 2 transient_failure 2%nat = None.
Proof.
  split; [reflexivity|]. split; [reflexivity|].
  exact (eq_sym (retry_returns_last_result (flaky 2 transient_failure) (fun _ => 0)
                   (fun _ => 0) (Some (no_jitter_policy 5 false)) None
                   (snd (Retry (flaky 2 transient_failure) (fun _ => 0) (fun _ => 0)
                           (Some (no_jitter_policy 5 false)) start))
                   eq_refl)).
Defined.

(** X3. With a budget of zero or fewer attempts both executors return
    [nil], the value of success, without invoking the operation and
    without looking at the cancel channel. *)
Theorem empty_budget_returns_nil (fn : nat -> error) (rand_raw : nat -> Z)
    (pow_out_of_range : Z -> Z) (cancel_ready : nat -> bool)
    (cancel_wins_wait : nat -> Z -> bool) (config : RetryConfig) :
  MaxAttempts config <= 0 ->
  Retry fn rand_raw pow_out_of_range (Some config) start = (Returned None, start)
  /\ RetryWithContext fn rand_raw pow_out_of_range cancel_ready cancel_wins_wait
       (Some config) start = (Returned None, start).
Proof.
  intros H. unfold Retry, RetryWithContext.
  replace (Z.to_nat (MaxAttempts config)) with 0%nat by lia. split; reflexivity.
Qed.

Lemma empty_budget_returns_nil_witness :
  Retry (always transient_failure) (fun _ => 0) (fun _ => 0)
    (Some (mkRetryConfig 0 (1 * Second) (16 * Second) true true)) start
  = (Returned None, start).
Proof.
  apply (empty_budget_returns_nil (always transient_failure) (fun _ => 0) (fun _ => 0)
           (fun _ => true) (fun _ _ => true)
           (mkRetryConfig 0 (1 * Second) (16 * Second) true true)).
  simpl. lia.
Defined.

(** X4. When the operation fails retryably [n] times and then succeeds,
    with [n] below the budget and every delay defined, [Retry] returns
    [nil] after [n + 1] invocations and [n] sleeps. *)
Theorem retry_until_success (fn : nat -> error) (rand_raw : nat -> Z)
    (pow_out_of_range : Z -> Z) (config : RetryConfig) (n : nat) :
  Z.of_nat n < MaxAttempts config ->
  (forall k, (k < n)%nat -> IsRetryableError (fn k) = true) ->
  fn n = None ->
  (forall a err, 1 <= a < MaxAttempts config ->
                 delay_defined pow_out_of_range a config err = true) ->
  exists st,
    Retry fn rand_raw pow_out_of_range (Some config) start = (Returned None, st)
    /\ calls st = S n
    /\ sleeps (trace st) = n.
Proof.
  intros Hn Hretry Hok Hdef. unfold Retry.
  destruct (Retry_loop_until_success fn rand_raw pow_out_of_range config n
              (Z.to_nat (MaxAttempts config)) 1 None start)
    as (st & Hrun & Hcalls & Hsleeps); try assumption; try lia.
  exists st. split; [exact Hrun|]. simpl in *. split; lia.
Qed.

Lemma retry_until_success_witness :
  exists st,
    Retry (flaky 2 transient_failure) (fun _ => 0) (fun _ => 0)
      (Some (no_jitter_policy 5 false)) start = (Returned None, st)
    /\ calls st = 3%nat /\ sleeps (trace st) = 2%nat.
Proof.
  apply (retry_until_success (flaky 2 transient_failure) (fun _ => 0) (fun _ => 0)
           (no_jitter_policy 5 false) 2).
  - simpl. lia.
  - intros k Hk. unfold flaky.
    destruct (k <? 2)%nat eqn:E; [reflexivity|apply Nat.ltb_ge in E; lia].
  - reflexivity.
  - intros a err _. unfold delay_defined. simpl. now rewrite orb_true_r.
Defined.

Lemma default_delays_defined (pow_out_of_range : Z -> Z) (a : Z) (err : error) :
  1 <= a < MaxAttempts DefaultRetryConfig ->
  delay_defined pow_out_of_range a DefaultRetryConfig err = true.
Proof.
  simpl. intros Ha. unfold delay_defined.
  destruct (GetRetryAfter err >? 0); [reflexivity|].
  assert (a = 1 \/ a = 2 \/ a = 3 \/ a = 4) as [-> | [-> | [-> | ->]]] by lia; reflexivity.
Qed.

(** X5. Under a policy without jitter, and under the default policy the
    API client uses, neither executor panics in its own code (the loop and
    [calculateDelay]): every run returns, for an operation whose results
    are [nil], [*APIError] values with a non-nil pointer, or errors of
    other types. *)
Theorem executors_return_without_short_jitter (fn : nat -> error)
    (rand_raw : nat -> Z) (pow_out_of_range : Z -> Z) (cancel_ready : nat -> bool)
    (cancel_wins_wait : nat -> Z -> bool) (config : option RetryConfig) :
  config = None \/ Jitter (effective config) = false ->
  (exists r st, Retry fn rand_raw pow_out_of_range config start = (Returned r, st))
  /\ (exists r st, RetryWithContext fn rand_raw pow_out_of_range cancel_ready
                     cancel_wins_wait config start = (Returned r, st)).
Proof.
  intros H.
  assert (Hdef : forall a err, 1 <= a < MaxAttempts (effective config) ->
                   delay_defined pow_out_of_range a (effective config) err = true).
  { destruct H as [-> | Hj].
    - apply default_delays_defined.
    - intros a err _. unfold delay_defined. rewrite Hj. simpl. now rewrite orb_true_r. }
  unfold Retry, RetryWithContext. fold (effective config). split.
  - apply Retry_loop_returns; [exact Hdef|lia].
  - apply RetryWithContext_loop_returns; [exact Hdef|lia].
Qed.

Lemma executors_return_without_short_jitter_witness :
  exists r st, Retry (always transient_failure) (fun _ => 7) (fun _ => 0) None start
               = (Returned r, st).
Proof.
  apply (executors_return_without_short_jitter (always transient_failure) (fun _ => 7)
           (fun _ => 0) (fun _ => false) (fun _ _ => false) None).
  left; reflexivity.
Defined.

(** X6. While the cancel channel stays silent, [RetryWithContext] returns
    what [Retry] returns, after as many invocations and random draws. *)
Theorem executors_agree_without_cancel (fn : nat -> error) (rand_raw : nat -> Z)
    (pow_out_of_range : Z -> Z) (config : option RetryConfig) :
  fst (RetryWithContext fn rand_raw pow_out_of_range (fun _ => false) (fun _ _ => false)
         config start)
  = fst (Retry fn rand_raw pow_out_of_range config start)
  /\ calls (snd (RetryWithContext fn rand_raw pow_out_of_range (fun _ => false)
                   (fun _ _ => false) config start))
     = calls (snd (Retry fn rand_raw pow_out_of_range config start))
  /\ draws (snd (RetryWithContext fn rand_raw pow_out_of_range (fun _ => false)
                   (fun _ _ => false) config start))
     = draws (snd (Retry fn rand_raw pow_out_of_range config start)).
Proof.
  unfold Retry, RetryWithContext.
  destruct (Retry_loop _ _ _ _ _ _ _ _) as [o1 st1] eqn:E1.
  destruct (RetryWithContext_loop _ _ _ _ _ _ _ _ _ _) as [o2 st2] eqn:E2.
  destruct (executors_agree_loop fn rand_raw pow_out_of_range (fun _ => false)
              (fun _ _ => false) _ (fun _ => eq_refl) (fun _ _ => eq_refl)
              _ _ _ _ _ _ _ _ _ eq_refl eq_refl E1 E2) as (Ho & Hc & Hd).
  simpl. repeat split; congruence.
Qed.

(** X7. The cancellable executor never invokes the operation once its
    check has seen a cancel signal: before each invocation it made, the
    check found none. *)
Theorem no_invocation_after_cancel_seen (fn : nat -> error) (rand_raw : nat -> Z)
    (pow_out_of_range : Z -> Z) (cancel_ready : nat -> bool)
    (cancel_wins_wait : nat -> Z -> bool) (config : option RetryConfig) (k : nat) :
  (k < calls (snd (RetryWithContext fn rand_raw pow_out_of_range cancel_ready
                     cancel_wins_wait config start)))%nat ->
  cancel_ready k = false.
Proof.
  unfold RetryWithContext.
  destruct (RetryWithContext_loop _ _ _ _ _ _ _ _ _ _) as [o st] eqn:E.
  apply RetryWithContext_loop_bounded in E as [_ Hchecked]. simpl in *.
  intros Hk. apply Hchecked. lia.
Qed.

Lemma no_invocation_after_cancel_seen_witness :
  calls (snd (RetryWithContext (always transient_failure) (fun _ => 0) (fun _ => 0)
                (fun k => Nat.eqb k 2) (fun _ _ => false)
                (Some (no_jitter_policy 5 false)) start)) = 2%nat
  /\ Nat.eqb 1 2 = false.
Proof.
  split; [reflexivity|].
  apply (no_invocation_after_cancel_seen (always transient_failure) (fun _ => 0)
           (fun _ => 0) (fun k => Nat.eqb k 2) (fun _ _ => false)
           (Some (no_jitter_policy 5 false)) 1%nat).
  simpl. lia.
Defined.

(** ** Delays *)

Lemma wrap64_small (x : Z) : - 2 ^ 63 <= x < 2 ^ 63 -> wrap64 x = x.
Proof. intros H. unfold wrap64. rewrite Z.mod_small; lia. Qed.

Lemma wrap64_range (x : Z) : - 2 ^ 63 <= wrap64 x < 2 ^ 63.
Proof.
  unfold wrap64. pose proof (Z.mod_pos_bound (x + 2 ^ 63) (2 ^ 64) ltac:(lia)). lia.
Qed.

(** X8. A failure that the classifier files under the rate-limit rule
    makes the executor wait sixty seconds before the retry, at every
    attempt and under every policy: the backoff, the cap [MaxDelay] and
    the jitter do not apply, and no random number is drawn. *)
Theorem rate_limited_failure_waits_sixty_seconds (lower : string -> string)
    (rand_raw : nat -> Z) (pow_out_of_range : Z -> Z) (e : goerror) (status : Z)
    (attempt : Z) (config : RetryConfig) (st : exec_state) :
  status = 429 \/ Contains (lower (Error e)) "rate limit" = true
    \/ Contains (lower (Error e)) "rate_limited" = true ->
  exists a,
    ClassifyError lower (Some e) status = Some a
    /\ calculateDelay rand_raw pow_out_of_range attempt config (Some (ApiError a)) st
       = (Returned (60 * Second), st).
Proof.
  intros H. eexists. split.
  - apply ClassifyError_rate_limit.
    destruct H as [-> | [-> | ->]]; simpl; rewrite ?orb_true_r; reflexivity.
  - unfold calculateDelay. simpl. now rewrite extractRetryAfter_constant.
Qed.

Lemma rate_limited_failure_waits_sixty_seconds_witness :
  MaxDelay DefaultRetryConfig < 60 * Second
  /\ exists a,
       ClassifyError ascii_ToLower (Some (PlainError "API rate limit exceeded" None)) 403
       = Some a
       /\ calculateDelay (fun _ => 0) (fun _ => 0) 1 DefaultRetryConfig
            (Some (ApiError a)) start
          = (Returned (60 * Second), start).
Proof.
  split; [reflexivity|].
  apply (rate_limited_failure_waits_sixty_seconds ascii_ToLower (fun _ => 0) (fun _ => 0)
           (PlainError "API rate limit exceeded" None) 403 1 DefaultRetryConfig start).
  right; left; reflexivity.
Defined.

(** X9. Without jitter and without a retryAfter on the failure, the delay
    never exceeds [MaxDelay], at any attempt, also when the doubling
    overflows. *)
Theorem delay_without_jitter_is_capped (rand_raw : nat -> Z)
    (pow_out_of_range : Z -> Z) (attempt : Z) (config : RetryConfig) (err : error)
    (st : exec_state) :
  Jitter config = false ->
  GetRetryAfter err <= 0 ->
  exists d,
    calculateDelay rand_raw pow_out_of_range attempt config err st = (Returned d, st)
    /\ d <= MaxDelay config.
Proof.
  intros Hj Hr. unfold calculateDelay. rewrite Hj.
  replace (GetRetryAfter err >? 0) with false
    by (symmetry; rewrite Z.gtb_ltb; apply Z.ltb_ge; lia).
  destruct (_ >? MaxDelay config) eqn:E; eexists; (split; [reflexivity|]).
  - lia.
  - rewrite Z.gtb_ltb in E. apply Z.ltb_ge in E. exact E.
Qed.

Lemma delay_without_jitter_is_capped_witness :
  exists d,
    calculateDelay (fun _ => 0) (fun _ => 0) 40 (no_jitter_policy 50 false)
      (Some transient_failure) start = (Returned d, start)
    /\ d <= 16 * Second.
Proof.
  apply (delay_without_jitter_is_capped (fun _ => 0) (fun _ => 0) 40
           (no_jitter_policy 50 false) (Some transient_failure) start).
  - reflexivity.
  - simpl. lia.
Defined.

(** X10. Without jitter and without a retryAfter, the delay after attempt
    [k] is the smaller of [MaxDelay] and [BaseDelay * 2^(k-1)], as long as
    that product fits a 64-bit duration. *)
Theorem delay_is_capped_power_of_two (rand_raw : nat -> Z)
    (pow_out_of_range : Z -> Z) (attempt : Z) (config : RetryConfig) (err : error)
    (st : exec_state) :
  Jitter config = false ->
  GetRetryAfter err <= 0 ->
  1 <= attempt <= 63 ->
  - 2 ^ 63 <= BaseDelay config * 2 ^ (attempt - 1) < 2 ^ 63 ->
  calculateDelay rand_raw pow_out_of_range attempt config err st
  = (Returned (Z.min (MaxDelay config) (BaseDelay config * 2 ^ (attempt - 1))), st).
Proof.
  intros Hj Hr Ha Hfit. unfold calculateDelay, pow2_duration. rewrite Hj.
  replace (GetRetryAfter err >? 0) with false
    by (symmetry; rewrite Z.gtb_ltb; apply Z.ltb_ge; lia).
  replace ((0 <=? attempt - 1) && (attempt - 1 <=? 62)) with true
    by (symmetry; apply andb_true_intro; split; apply Z.leb_le; lia).
  rewrite wrap64_small by exact Hfit.
  destruct (_ >? MaxDelay config) eqn:E; rewrite Z.gtb_ltb in E.
  - apply Z.ltb_lt in E. now rewrite Z.min_l by lia.
  - apply Z.ltb_ge in E. now rewrite Z.min_r by lia.
Qed.

Lemma delay_is_capped_power_of_two_witness :
  calculateDelay (fun _ => 0) (fun _ => 0) 3 (no_jitter_policy 5 false)
    (Some transient_failure) start
  = (Returned (Z.min (16 * Second) (1 * Second * 2 ^ (3 - 1))), start).
Proof.
  apply (delay_is_capped_power_of_two (fun _ => 0) (fun _ => 0) 3
           (no_jitter_policy 5 false) (Some transient_failure) start).
  - reflexivity.
  - simpl. lia.
  - lia.
  - split; [discriminate|reflexivity].
Defined.

(** X11. With jitter the delay returned lies between the delay without
    jitter and that delay plus a tenth of it (the tenth excluded); one
    random number is drawn, and the delay without jitter is at least ten
    nanoseconds, the run having panicked otherwise. *)
Theorem jitter_adds_less_than_a_tenth (rand_raw : nat -> Z)
    (pow_out_of_range : Z -> Z) (attempt : Z) (config : RetryConfig) (err : error)
    (st st' : exec_state) (d : Z) :
  Jitter config = true ->
  GetRetryAfter err <= 0 ->
  MaxDelay config < 2 ^ 62 ->
  calculateDelay rand_raw pow_out_of_range attempt config err st = (Returned d, st') ->
  exists base,
    calculateDelay rand_raw pow_out_of_range attempt (without_jitter config) err st
    = (Returned base, st)
    /\ 10 <= base <= MaxDelay config
    /\ base <= d < base + Z.quot base 10
    /\ draws st' = S (draws st).
Proof.
  intros Hj Hr Hmax. unfold calculateDelay, Int63n, without_jitter. simpl.
  rewrite Hj.
  replace (GetRetryAfter err >? 0) with false
    by (symmetry; rewrite Z.gtb_ltb; apply Z.ltb_ge; lia).
  set (raw := wrap64 _).
  set (base := if raw >? MaxDelay config then MaxDelay config else raw).
  assert (Hbase : base <= MaxDelay config).
  { unfold base. destruct (raw >? MaxDelay config) eqn:E; [lia|].
    rewrite Z.gtb_ltb in E. now apply Z.ltb_ge in E. }
  destruct (Z.quot base 10 <=? 0) eqn:Eq; [discriminate|].
  apply Z.leb_gt in Eq. intros [= <- <-].
  assert (H10 : 10 <= base).
  { destruct (Z_lt_le_dec base 10) as [Hlt|]; [|assumption].
    destruct (Z_lt_le_dec base 0) as [Hneg|Hpos].
    - pose proof (Z.quot_le_mono base 0 10 ltac:(lia) ltac:(lia)) as Hq.
      rewrite Z.quot_0_l in Hq by lia. lia.
    - rewrite Z.quot_small in Eq by lia. lia. }
  pose proof (Z.mod_pos_bound (rand_raw (draws st)) (Z.quot base 10) Eq) as Hjit.
  assert (Hq : Z.quot base 10 <= base).
  { rewrite Z.quot_div_nonneg by lia.
    apply Z.div_le_upper_bound; lia. }
  exists base. split; [reflexivity|]. split; [lia|].
  rewrite wrap64_small by lia. simpl. split; [lia|reflexivity].
Qed.

Lemma jitter_adds_less_than_a_tenth_witness :
  exists base,
    calculateDelay (fun _ => 123456789) (fun _ => 0) 2
      (without_jitter DefaultRetryConfig) (Some transient_failure) start
    = (Returned base, start)
    /\ 10 <= base <= MaxDelay DefaultRetryConfig
    /\ base <= 2 * Second + 123456789 < base + Z.quot base 10
    /\ draws (mkExec 0 1 []) = S (draws start).
Proof.
  apply (jitter_adds_less_than_a_tenth (fun _ => 123456789) (fun _ => 0) 2
           DefaultRetryConfig (Some transient_failure) start (mkExec 0 1 [])
           (2 * Second + 123456789)).
  - reflexivity.
  - simpl. lia.
  - reflexivity.
  - reflexivity.
Defined.

(** ** More on the classifiers *)

(** X12. What [ClassifyError] keeps of the failure depends on the kind:
    the raw message survives in Validation, Transient and Unknown results
    and is replaced by a fixed text in the others; the original error can
    be unwrapped from every result but RateLimit and Validation ones; the
    status code is recorded in Unknown results only. *)
Theorem classify_keeps_by_kind (lower : string -> string) (e : goerror) (status : Z) :
  exists a,
    ClassifyError lower (Some e) status = Some a
    /\ Message a = match Type' a with
                   | ErrorTypeRateLimit => "GitHub API rate limit exceeded"
                   | ErrorTypePermission => "Permission denied"
                   | ErrorTypeConflict => "Resource conflict"
                   | _ => Error e
                   end
    /\ Unwrap a = match Type' a with
                  | ErrorTypeRateLimit | ErrorTypeValidation => None
                  | _ => Some e
                  end
    /\ HTTPStatus a = match Type' a with
                      | ErrorTypeUnknown => status
                      | _ => 0
                      end.
Proof.
  unfold ClassifyError.
  repeat match goal with
         | |- context [if ?c then _ else _] => destruct c
         end; eexists; repeat split; reflexivity.
Qed.

(** X13. The field errors of a classified failure: they are present (a
    non-nil map) exactly in Validation results, and hold at most the two
    entries the heuristic knows, "assignee" for a message with "user" and
    "not found", and "title" for a message with "title". *)
Theorem classified_field_errors (lower : string -> string) (e : goerror) (status : Z)
    (a : APIError) :
  ClassifyError lower (Some e) status = Some a ->
  (Type' a = ErrorTypeValidation <-> FieldErrors a <> None)
  /\ forall fe field text,
       FieldErrors a = Some fe -> fe !! field = Some text ->
       (field = "assignee" /\ text = "User not found"
        /\ Contains (lower (Error e)) "user" && Contains (lower (Error e)) "not found" = true)
       \/ (field = "title" /\ text = "Invalid title"
           /\ Contains (lower (Error e)) "title" = true).
Proof.
  unfold ClassifyError.
  repeat match goal with
         | |- context [if ?c then _ else _] => destruct c
         end; intros [= <-]; simpl;
    (split;
     [split; [intros Hk; first [discriminate Hk | discriminate]
             |intros Hn; first [reflexivity | exfalso; apply Hn; reflexivity]]
     |]);
    intros fe field text Hfe; try discriminate Hfe.
  all: injection Hfe as <-; unfold extractFieldErrors.
  all: destruct (Contains (lower (Error e)) "user" && Contains (lower (Error e)) "not found")
         eqn:Ea;
    destruct (Contains (lower (Error e)) "title") eqn:Et; intros Hl.
  all: repeat match type of Hl with
              | <[_ := _]> _ !! _ = Some _ =>
                apply lookup_insert_Some in Hl as [[<- <-]|[_ Hl]]
              end; auto; try (rewrite lookup_empty in Hl; discriminate).
Qed.

Lemma classified_field_errors_witness :
  exists a fe,
    ClassifyError ascii_ToLower (Some (PlainError "Invalid title for user" None)) 0 = Some a
    /\ FieldErrors a = Some fe
    /\ fe !! "title" = Some "Invalid title"
    /\ fe !! "assignee" = None.
Proof.
  eexists. eexists. split; [reflexivity|]. split; [reflexivity|].
  split; [reflexivity|].
  destruct (_ !! "assignee") as [text|] eqn:E; [|reflexivity].
  destruct (proj2 (classified_field_errors ascii_ToLower
                     (PlainError "Invalid title for user" None) 0 _ eq_refl)
                  _ "assignee" text eq_refl E)
    as [(_ & _ & H)|(H & _)]; discriminate H.
Defined.

(** X14. A result of the GraphQL classifier keeps the message of the
    error, wraps no original error, is retryable exactly when its kind is
    RateLimit, and is never of kind Conflict or Transient. *)
Theorem graphql_classifier_shape (lower upper : string -> string) (g : GraphQLError) :
  Message (ClassifyGraphQLError lower upper g) = gql_Message g
  /\ Unwrap (ClassifyGraphQLError lower upper g) = None
  /\ (Retryable (ClassifyGraphQLError lower upper g) = true
      <-> Type' (ClassifyGraphQLError lower upper g) = ErrorTypeRateLimit)
  /\ Type' (ClassifyGraphQLError lower upper g) <> ErrorTypeConflict
  /\ Type' (ClassifyGraphQLError lower upper g) <> ErrorTypeRetryable.
Proof.
  unfold ClassifyGraphQLError.
  repeat match goal with
         | |- context [if ?c then _ else _] => destruct c
         end; simpl; repeat split; intros; first [reflexivity | congruence].
Qed.

(** X15. The type of a GraphQL error decides before its message: when the
    upper-cased type is one of the five known names, the kind is the one
    that name selects, whatever the message says. *)
Theorem graphql_type_beats_message (lower upper : string -> string) (g : GraphQLError)
    (kind : ErrorType) :
  kind_of_graphql_type (upper (gql_Type g)) = Some kind ->
  Type' (ClassifyGraphQLError lower upper g) = kind.
Proof.
  unfold kind_of_graphql_type, ClassifyGraphQLError.
  repeat match goal with
         | |- context [if ?c then _ else _] => destruct c
         end; simpl; intros H; first [discriminate H | now injection H].
Qed.

Lemma graphql_type_beats_message_witness :
  Contains (ascii_ToLower "API rate limit exceeded") "rate limit" = true
  /\ Type' (ClassifyGraphQLError ascii_ToLower (fun s => s)
              (mkGraphQLError "FORBIDDEN" "API rate limit exceeded" [] None))
     = ErrorTypePermission.
Proof.
  split; [reflexivity|].
  apply (graphql_type_beats_message ascii_ToLower (fun s => s)
           (mkGraphQLError "FORBIDDEN" "API rate limit exceeded" [] None)
           ErrorTypePermission).
  reflexivity.
Defined.

(** X16. The text shown for a permission failure that [ClassifyError]
    produced is always the general one: the classifier has replaced the
    message by "Permission denied", so the hint about token scopes is
    never chosen. *)
Theorem classified_permission_never_hints_at_token (lower : string -> string)
    (round : Z -> Z -> Z) (show : Z -> string)
    (order : gmap string string -> list (string * string))
    (e : goerror) (status : Z) (a : APIError) :
  Contains (lower "Permission denied") "token" = false ->
  ClassifyError lower (Some e) status = Some a ->
  Type' a = ErrorTypePermission ->
  GetUserFriendlyMessage lower round show order a
  = "Permission denied. You may not have access to this resource.".
Proof.
  intros Hlow Ha Hk. unfold ClassifyError in Ha.
  repeat match type of Ha with
         | context [if ?c then _ else _] => destruct c
         end; injection Ha as <-; try discriminate Hk.
  unfold GetUserFriendlyMessage. simpl. now rewrite Hlow.
Qed.

Lemma classified_permission_never_hints_at_token_witness :
  Contains (ascii_ToLower "Bad credentials: token expired, not authorized") "token" = true
  /\ GetUserFriendlyMessage ascii_ToLower (fun d _ => d) (fun _ => "") map_to_list
       (PermissionError "Permission denied"
          (Some (PlainError "Bad credentials: token expired, not authorized" None)))
     = "Permission denied. You may not have access to this resource.".
Proof.
  split; [reflexivity|].
  apply (classified_permission_never_hints_at_token ascii_ToLower (fun d _ => d)
           (fun _ => "") map_to_list
           (PlainError "Bad credentials: token expired, not authorized" None) 0).
  - reflexivity.
  - reflexivity.
  - reflexivity.
Defined.

(** ** More on the view state machine *)

Section MoreUIFacts.

Context {X : Externals}.

Lemma icon_message_not_empty (a : APIError) (text : string) :
  String.eqb (match Type' a with
              | ErrorTypeRateLimit => icon_rate_limit
              | ErrorTypePermission => icon_permission
              | ErrorTypeValidation => icon_warning
              | ErrorTypeRetryable => icon_retryable
              | _ => icon_other
              end +:+ text) "" = false.
Proof. destruct (Type' a); reflexivity. Qed.

Lemma Save_effect (c : nat) (w w' : World) (e : error) :
  Save c w = (e, w') ->
  configs w' = configs w
  /\ match e with
     | None => config_file w' = Some (configs w c)
     | Some _ => w' = w
     end.
Proof.
  unfold Save. destruct (config_path w); [intros [= <- <-]; auto|].
  destruct (write_fault w); intros [= <- <-]; auto.
Qed.

Lemma select_repository_world (m : Model) (msg : RepositoriesLoadedMsg) (w : World) :
  snd (select_repository m msg w) = w.
Proof.
  unfold select_repository. now destruct (rl_Repositories msg) as [|r1 [|r2 rest]].
Qed.

Lemma select_repository_keeps_world (m m' : Model) (msg : RepositoriesLoadedMsg)
    (w w' : World) (cmd : option Cmd) :
  select_repository m msg w = (m', cmd, w') -> w' = w.
Proof.
  unfold select_repository.
  destruct (rl_Repositories msg) as [|r1 [|r2 rest]]; now intros [= _ _ <-].
Qed.

Lemma select_repository_err (m : Model) (msg : RepositoriesLoadedMsg) (w : World) :
  err (fst (fst (select_repository m msg w))) = err m.
Proof.
  unfold select_repository. now destruct (rl_Repositories msg) as [|r1 [|r2 rest]].
Qed.

End MoreUIFacts.

(** X18. Only an [ErrorMsg] or a [PartialSuccessMsg] changes the error
    value: every other message leaves it as it is.  So an error that was
    not dismissed is still up after a later success: once the item is
    saved, deleted or converted, the screen is the error overlay again. *)
Theorem error_outlives_success {X : Externals} (m : Model) (msg : Msg) (w : World) :
  match msg with
  | MsgError _ | MsgPartialSuccess _ => True
  | _ => err (fst (fst (Update m msg w))) = err m
  end
  /\ (err m <> None ->
      match msg with
      | MsgItemSaved | MsgItemDeleted _ | MsgDraftConverted _ =>
        exists text, View (fst (fst (Update m msg w))) = ErrorOverlay text
      | _ => True
      end).
Proof.
  split.
  - destruct msg as [s| |p|d|p|l|r|c|p|e]; try exact I; try reflexivity.
    unfold Update.
    destruct (config m) as [c|]; [|apply select_repository_err].
    destruct (GetDefaultRepository _ _); [|apply select_repository_err].
    destruct (List.find _ _); [reflexivity|].
    destruct (Save _ _) as [e w']. apply select_repository_err.
  - intros He. destruct msg; try exact I;
      unfold View, Update; simpl; destruct (err m); try contradiction;
      eexists; reflexivity.
Qed.

Lemma error_outlives_success_witness :
  exists text,
    View (fst (fst (Update (set_err (Some connection_reset) demo_model) MsgItemSaved
                      (demo_world "R_a")))) = ErrorOverlay text.
Proof.
  apply (proj2 (error_outlives_success (set_err (Some connection_reset) demo_model)
                  MsgItemSaved (demo_world "R_a"))).
  discriminate.
Defined.

Lemma store_config_other (c c' : nat) (v : Config) (w : World) (pid : string) :
  (c' <> c \/ GetDefaultRepository v pid = GetDefaultRepository (configs w c) pid) ->
  GetDefaultRepository (configs (store_config c v w) c') pid
  = GetDefaultRepository (configs w c') pid.
Proof.
  unfold store_config. simpl. intros H.
  destruct (Nat.eqb c' c) eqn:E; [|reflexivity].
  apply Nat.eqb_eq in E. subst c'. destruct H as [H|H]; [contradiction|exact H].
Qed.

(** X19. A message changes at most the stored default of its own
    project: the defaults of all other projects, in every configuration
    object, are as before; and of the world outside the model only the
    messages that load repositories or convert a draft change anything. *)
Theorem other_defaults_untouched {X : Externals} (m : Model) (msg : Msg) (w : World)
    (c : nat) (pid : string) :
  default_touched_by msg <> Some pid ->
  GetDefaultRepository (configs (snd (Update m msg w)) c) pid
  = GetDefaultRepository (configs w c) pid
  /\ (default_touched_by msg = None -> snd (Update m msg w) = w).
Proof.
  intros Hpid.
  destruct msg as [s| |p|d|p|l|r|cd|p|e]; try (split; reflexivity);
    (split; [|discriminate]); unfold Update; simpl in Hpid.
  - destruct (config m) as [c0|];
      [|destruct (select_repository m r w) as [[m' cmd] w'] eqn:E;
        apply select_repository_keeps_world in E; now subst].
    destruct (GetDefaultRepository (configs w c0) _) as [d|];
      [|destruct (select_repository m r w) as [[m' cmd] w'] eqn:E;
        apply select_repository_keeps_world in E; now subst].
    destruct (List.find _ _); [reflexivity|].
    destruct (Save c0 _) as [e w1] eqn:Es.
    destruct (select_repository m r _) as [[m' cmd] w'] eqn:E.
    apply select_repository_keeps_world in E. subst w'. simpl.
    apply Save_effect in Es as [Hcfg _].
    assert (Hw : forall w2 : World,
               configs (match e with
                        | Some e0 => eprint ("Warning: failed to save config: "
                                               +:+ Error e0 +:+ newline) w2
                        | None => w2
                        end) = configs w2) by (intros; now destruct e).
    rewrite Hw, Hcfg. apply store_config_other.
    destruct (Nat.eq_dec c c0) as [->|Hne]; [right|left; exact Hne].
    unfold GetDefaultRepository, ClearDefaultRepository. simpl.
    apply lookup_delete_ne. congruence.
  - destruct (cd_SaveAsDefault cd); [|reflexivity].
    destruct (config m) as [c0|]; [|reflexivity].
    destruct (Save c0 _) as [e w1] eqn:Es. simpl.
    apply Save_effect in Es as [Hcfg _].
    assert (Hw : configs (match e with
                          | Some e0 => eprint ("Warning: failed to save config: "
                                                 +:+ Error e0 +:+ newline) w1
                          | None => w1
                          end) = configs w1) by now destruct e.
    rewrite Hw, Hcfg. apply store_config_other.
    destruct (Nat.eq_dec c c0) as [->|Hne]; [right|left; exact Hne].
    unfold GetDefaultRepository, SetDefaultRepository. simpl.
    apply lookup_insert_ne. congruence.
Qed.

Lemma other_defaults_untouched_witness :
  GetDefaultRepository
    (configs (snd (Update demo_model (MsgRepositoriesLoaded (loaded [repo_a; repo_b]))
                     (mkWorld (fun _ => mkConfig {[ "PVT_1" := "R_gone"; "PVT_2" := "R_b" ]})
                        None (inr "config.json") None []))) 0%nat) "PVT_2"
  = Some "R_b".
Proof.
  rewrite (proj1 (other_defaults_untouched demo_model
                    (MsgRepositoriesLoaded (loaded [repo_a; repo_b]))
                    (mkWorld (fun _ => mkConfig {[ "PVT_1" := "R_gone"; "PVT_2" := "R_b" ]})
                       None (inr "config.json") None []) 0%nat "PVT_2"
                    ltac:(discriminate))).
  reflexivity.
Defined.

(** X20. A repository remembered on conversion is used the next time:
    after a [ConvertDraftMsg] that asks to save its repository as the
    default, a list of repositories for the same project that holds this
    repository is answered with the conversion into the repository of
    that identifier, without the selector; and the configuration file
    holds the default when the save succeeded. *)
Theorem remembered_default_is_used {X : Externals} (m m2 : Model) (msg : ConvertDraftMsg)
    (w : World) (c : nat) (repos : list Repository) (item : ProjectItem) :
  config m = Some c ->
  config m2 = Some c ->
  cd_SaveAsDefault msg = true ->
  In (cd_Repository msg) repos ->
  let w1 := snd (Update m (MsgConvertDraft msg) w) in
  let '(m', cmd, w2) :=
    Update m2 (MsgRepositoriesLoaded (mkRepositoriesLoadedMsg repos (cd_Project msg) item))
      w1 in
  GetDefaultRepository (configs w1 c) (Project_ID (cd_Project msg))
  = Some (Repository_ID (cd_Repository msg))
  /\ ((exists path, config_path w = inr path) -> write_fault w = None ->
      config_file w1 = Some (configs w1 c))
  /\ (exists repo,
        In repo repos /\ Repository_ID repo = Repository_ID (cd_Repository msg)
        /\ cmd = Some (convertDraft (apiClient m2)
                         (mkConvertDraftMsg (cd_Project msg) item repo false)))
  /\ currentView m' = currentView m2
  /\ w2 = w1.
Proof.
  intros Hc Hc2 Hsave Hin w1.
  assert (Hw1 : GetDefaultRepository (configs w1 c) (Project_ID (cd_Project msg))
                = Some (Repository_ID (cd_Repository msg))
                /\ ((exists path, config_path w = inr path) -> write_fault w = None ->
                    config_file w1 = Some (configs w1 c))).
  { unfold w1, Update. rewrite Hc, Hsave.
    set (w0 := store_config c _ w).
    destruct (Save c w0) as [e w'] eqn:Es. simpl.
    pose proof (Save_effect _ _ _ _ Es) as [Hcfg Hfile].
    assert (Hcfg0 : configs w0 c = SetDefaultRepository (configs w c)
                                     (Project_ID (cd_Project msg))
                                     (Repository_ID (cd_Repository msg))).
    { unfold w0, store_config. simpl. now rewrite Nat.eqb_refl. }
    split.
    - destruct e; simpl; rewrite Hcfg, Hcfg0;
        unfold GetDefaultRepository, SetDefaultRepository; simpl;
        apply lookup_insert_eq.
    - intros [path Hp] Hwf. unfold Save in Es.
      change (config_path w0) with (config_path w) in Es.
      change (write_fault w0) with (write_fault w) in Es.
      rewrite Hp, Hwf in Es. injection Es as <- <-. reflexivity. }
  destruct Hw1 as [Hdef Hfile]. clearbody w1.
  unfold Update. rewrite Hc2. simpl rl_Project. rewrite Hdef. simpl rl_Repositories.
  destruct (find_default_some repos (Repository_ID (cd_Repository msg)))
    as (repo & Hfind & Hrin & Hid); [eauto|].
  rewrite Hfind. split; [reflexivity|]. split; [exact Hfile|].
  repeat split. exists repo. auto.
Qed.

Lemma remembered_default_is_used_witness :
  snd (fst (Update demo_model
              (MsgRepositoriesLoaded (mkRepositoriesLoadedMsg [repo_a; repo_b]
                                        demo_project demo_item))
              (snd (Update demo_model
                      (MsgConvertDraft (mkConvertDraftMsg demo_project demo_item repo_b true))
                      (demo_world "R_a")))))
  = Some (convertDraft (Some tt) (mkConvertDraftMsg demo_project demo_item repo_b false)).
Proof.
  pose proof (remembered_default_is_used demo_model demo_model
                (mkConvertDraftMsg demo_project demo_item repo_b true)
                (demo_world "R_a") 0%nat [repo_a; repo_b] demo_item
                eq_refl eq_refl eq_refl ltac:(right; left; reflexivity)) as H.
  cbv zeta in H.
  change (cd_Project (mkConvertDraftMsg demo_project demo_item repo_b true))
    with demo_project in H.
  destruct (Update demo_model (MsgRepositoriesLoaded _) _) as [[m' cmd] w2].
  destruct H as (_ & _ & (repo & Hin & Hid & Hcmd) & _). simpl. rewrite Hcmd.
  destruct Hin as [<-|[<-|[]]]; [discriminate Hid|reflexivity].
Defined.

(** X21. After a terminal failure the screen is the error overlay, in
    whatever state the failure arrives (also while loading): for an API
    error it shows the icon of the kind and the user-facing text, for any
    other error the word "Error: " and the error's own text. *)
Theorem failure_shows_error_overlay {X : Externals} (m : Model) (e : goerror) (w : World) :
  View (fst (fst (Update m (MsgError (Some e)) w)))
  = ErrorOverlay match e with
                 | ApiError a => error_icon (Type' a) +:+ friendly a
                 | PlainError text _ => "Error: " +:+ text
                 end.
Proof.
  destruct e as [text cause|a]; unfold Update, View, renderError; simpl.
  - reflexivity.
  - destruct (Type' a); reflexivity.
Qed.

(** X22. A failure followed by "esc" brings the state machine back: the
    overlay is down, and the model is the one before the failure with the
    loading flag cleared and the message replaced; the active view and
    all data are as they were. *)
Theorem dismissed_failure_restores_state {X : Externals} (m : Model) (e : goerror)
    (w : World) :
  err m = None ->
  exists text,
    HandleKey (fst (fst (Update m (MsgError (Some e)) w))) "esc"
    = KeyHandled (set_loading false (set_message text m))
    /\ error_overlay (set_loading false (set_message text m)) = false.
Proof.
  intros Hnone. destruct m. simpl in Hnone. subst.
  destruct e as [text cause|a]; eexists; split; reflexivity.
Qed.

Lemma dismissed_failure_restores_state_witness :
  exists text,
    HandleKey (fst (fst (Update demo_model (MsgError (Some connection_reset))
                           (demo_world "R_a")))) "esc"
    = KeyHandled (set_loading false (set_message text demo_model))
    /\ error_overlay (set_loading false (set_message text demo_model)) = false.
Proof.
  apply (dismissed_failure_restores_state demo_model connection_reset (demo_world "R_a")).
  reflexivity.
Defined.

(** X23. The key switch at the top level of [Model.Update] returns
    [tea.Quit] only from the owner selector or the project list, and only
    for the keys "q" and "ctrl+c"; what the sub-model of the view answers
    to a key that is passed on is not part of this. *)
Theorem quit_only_from_top_views {X : Externals} (m m' : Model) (key : string) :
  HandleKey m key = KeyQuit m' ->
  m' = m
  /\ (key = "q" \/ key = "ctrl+c")
  /\ (currentView m = viewOwnerSelector \/ currentView m = viewProjectList).
Proof.
  unfold HandleKey.
  destruct (String.eqb key "ctrl+c") eqn:E1; [apply String.eqb_eq in E1|];
    (destruct (String.eqb key "q") eqn:E2; [apply String.eqb_eq in E2|]); simpl.
  1-3: destruct (currentView m); intros [= <-]; auto.
  destruct (String.eqb key "esc").
  { destruct (err m); [discriminate|].
    destruct (currentView m); try discriminate;
      [destruct (0 <? _); discriminate | destruct (ie_item _); discriminate]. }
  destruct (String.eqb key "?"); [destruct (currentView m); discriminate|].
  destruct (String.eqb key "ctrl+d"); discriminate.
Qed.

Lemma quit_only_from_top_views_witness :
  HandleKey (set_currentView viewProjectList demo_model) "q"
  = KeyQuit (set_currentView viewProjectList demo_model)
  /\ HandleKey demo_model "q" = KeyDelegated demo_model.
Proof.
  split; [|reflexivity].
  destruct (HandleKey (set_currentView viewProjectList demo_model) "q") as [mq|mh|md] eqn:E;
    [|discriminate E..].
  now destruct (quit_only_from_top_views _ _ _ E) as [-> _].
Defined.

(** X24. The help screen does not return to where it was opened: "?"
    pressed twice in a view other than help ends in the project list. *)
Theorem help_closes_into_project_list {X : Externals} (m : Model) :
  currentView m <> viewHelp ->
  exists m1,
    HandleKey m "?" = KeyHandled m1
    /\ currentView m1 = viewHelp
    /\ HandleKey m1 "?" = KeyHandled (set_currentView viewProjectList m).
Proof.
  intros Hv. unfold HandleKey at 1. simpl.
  destruct (currentView m) eqn:Ev; try contradiction; eexists;
    (split; [reflexivity|]); split; reflexivity.
Qed.

Lemma help_closes_into_project_list_witness :
  exists m1,
    HandleKey demo_model "?" = KeyHandled m1
    /\ currentView m1 = viewHelp
    /\ HandleKey m1 "?" = KeyHandled (set_currentView viewProjectList demo_model).
Proof.
  apply (help_closes_into_project_list demo_model). discriminate.
Defined.

(** X25. No key changes the save-as-default setting of the repository
    selector through [Model.Update]: "ctrl+d" is taken by the top level
    (it toggles the debug mode), so every conversion the selector requests
    carries the setting it was created with. *)
Theorem save_as_default_is_out_of_reach {X : Externals}
    (input_Update : TextInput -> string -> TextInput) (m m' : Model) (key : string)
    (cmd : key_cmd) :
  Update_key input_Update m key = Some (m', cmd) ->
  rs_saveAsDefault (repositorySelector m') = rs_saveAsDefault (repositorySelector m)
  /\ forall msg, cmd = KeyCmdSelector (SelConvertDraft msg) ->
                 cd_SaveAsDefault msg = rs_saveAsDefault (repositorySelector m).
Proof.
  unfold Update_key.
  assert (Hkey : forall o, HandleKey m key = o ->
            rs_saveAsDefault (repositorySelector (key_model o))
            = rs_saveAsDefault (repositorySelector m)
            /\ match o with
               | KeyDelegated md => md = m /\ String.eqb key "ctrl+d" = false
               | _ => True
               end).
  { intros o <-. unfold HandleKey.
    destruct (String.eqb key "ctrl+c") eqn:E1; [apply String.eqb_eq in E1; subst key|];
      [simpl; destruct (currentView m); auto|].
    destruct (String.eqb key "q") eqn:E2; [apply String.eqb_eq in E2; subst key|];
      [simpl; destruct (currentView m); auto|].
    simpl.
    destruct (String.eqb key "esc") eqn:E3; [apply String.eqb_eq in E3; subst key|].
    { destruct (err m); [auto|].
      destruct (currentView m); auto;
        [destruct (0 <? _); auto | destruct (ie_item _); auto]. }
    destruct (String.eqb key "?"); [destruct (currentView m); auto|].
    destruct (String.eqb key "ctrl+d"); auto. }
  destruct (HandleKey m key) as [mq|mh|md] eqn:Ek;
    destruct (Hkey _ eq_refl) as [Hflag Hd]; simpl in Hflag.
  - intros [= <- <-]. split; [exact Hflag|discriminate].
  - intros [= <- <-]. split; [exact Hflag|discriminate].
  - destruct Hd as [-> Hne].
    destruct (currentView m); try discriminate;
      try (intros [= <- <-]; split; [reflexivity|discriminate]).
    unfold RepositorySelector_key. rewrite Hne.
    repeat match goal with
           | |- context [if ?c then _ else _] => destruct c
           | |- context [match nth_error ?l ?i with _ => _ end] => destruct (nth_error l i)
           end; intros [= <- <-]; simpl; (split; [reflexivity|]);
      intros msg [= <-]; reflexivity.
Qed.

Lemma save_as_default_is_out_of_reach_witness :
  rs_saveAsDefault
    (repositorySelector
       (fst (fst (select_repository demo_model (loaded [repo_a; repo_b])
                    (demo_world "R_a"))))) = false
  /\ exists m',
       Update_key (fun ti _ => ti)
         (fst (fst (select_repository demo_model (loaded [repo_a; repo_b])
                      (demo_world "R_a")))) "ctrl+d" = Some (m', KeyCmdNil)
       /\ rs_saveAsDefault (repositorySelector m') = false.
Proof.
  split; [reflexivity|]. eexists. split; [reflexivity|].
  apply (save_as_default_is_out_of_reach (fun ti _ => ti)
           (fst (fst (select_repository demo_model (loaded [repo_a; repo_b])
                        (demo_world "R_a")))) _ "ctrl+d" KeyCmdNil).
  reflexivity.
Defined.

Section BackNavigation.

Context {X : Externals}.

Lemma escape_descends (m m' : Model) :
  HandleKey m "esc" = KeyHandled m' ->
  err m' = None
  /\ match err m with
     | Some _ => currentView m' = currentView m
     | None => (view_rank (currentView m') < view_rank (currentView m))%nat
     end.
Proof.
  unfold HandleKey. simpl.
  destruct (err m) eqn:He; [intros [= <-]; auto|].
  destruct (currentView m); try discriminate;
    [destruct (0 <? _); [|discriminate] | | | destruct (ie_item _) | | | ];
    intros [= <-]; simpl; (split; [exact He|lia]).
Qed.

Lemma press_esc_bounded (n : nat) (m : Model) :
  (fst (press_esc n m)
   <= view_rank (currentView m) + match err m with Some _ => 1 | None => 0 end)%nat.
Proof.
  revert m. induction n as [|n IH]; intros m; simpl; [lia|].
  destruct (HandleKey m "esc") as [mq|m'|md] eqn:E; simpl; try lia.
  destruct (escape_descends _ _ E) as [Hnone Hrank].
  specialize (IH m'). destruct (press_esc n m') as [k m'']. simpl in *.
  rewrite Hnone in IH. destruct (err m); [rewrite Hrank in IH|]; lia.
Qed.

End BackNavigation.

(** X26. Going back ends: of any run of "esc" presses the top level
    handles at most five (one to dismiss an error, four to walk from the
    editor to the owner selector); from then on "esc" is passed to the
    sub-model of the view. *)
Theorem back_navigation_ends {X : Externals} (n : nat) (m : Model) :
  (fst (press_esc n m) <= 5)%nat
  /\ (err m = None -> (fst (press_esc n m) <= 4)%nat).
Proof.
  pose proof (press_esc_bounded n m) as H.
  assert (view_rank (currentView m) <= 4)%nat by (destruct (currentView m); simpl; lia).
  split; [destruct (err m); lia|]. intros He. rewrite He in H. lia.
Qed.

(** ** The repository selector *)

Section SelectorFacts.

Variable lower : string -> string.
Variable input_Update : TextInput -> string -> TextInput.

Lemma filterRepositories_incl (m : RepositorySelectorModel) :
  incl (rs_filteredRepos (filterRepositories lower m)) (rs_repos m)
  /\ rs_repos (filterRepositories lower m) = rs_repos m.
Proof.
  unfold filterRepositories. simpl. split; [|reflexivity].
  destruct (String.eqb _ ""); [apply incl_refl|].
  intros r Hr. now apply List.filter_In in Hr.
Qed.

End SelectorFacts.

(** X27. The selection of the repository selector stays valid under every
    key: it points into the filtered list (or is 0 when that list is
    empty), and the filtered list holds repositories of the full list
    only, which no key changes. *)
Theorem selection_stays_in_range (lower : string -> string)
    (input_Update : TextInput -> string -> TextInput) (m : RepositorySelectorModel)
    (key : string) :
  selection_in_range m ->
  incl (rs_filteredRepos m) (rs_repos m) ->
  selection_in_range (fst (RepositorySelector_key lower input_Update m key))
  /\ incl (rs_filteredRepos (fst (RepositorySelector_key lower input_Update m key)))
          (rs_repos m)
  /\ rs_repos (fst (RepositorySelector_key lower input_Update m key)) = rs_repos m.
Proof.
  intros Hsel Hincl. unfold RepositorySelector_key.
  assert (Hlen : forall l : list Repository,
             (0 <? Z.of_nat (length l)) = false -> l = []).
  { intros [|x l] H; [reflexivity|]. apply Z.ltb_ge in H. simpl in H. lia. }
  destruct (String.eqb key "down" || String.eqb key "ctrl+n").
  { destruct (0 <? _) eqn:E; simpl; [|auto].
    apply Z.ltb_lt in E. split; [|auto]. right. simpl.
    destruct (_ >=? _) eqn:E2; [lia|].
    rewrite Z.geb_leb in E2. apply Z.leb_gt in E2.
    destruct Hsel as [[Hnil _]|Hr]; [rewrite Hnil in E; simpl in E; lia|lia]. }
  destruct (String.eqb key "up" || String.eqb key "ctrl+p").
  { destruct (0 <? _) eqn:E; simpl; [|auto].
    apply Z.ltb_lt in E. split; [|auto]. right. simpl.
    destruct (_ <? 0) eqn:E2; [lia|]. apply Z.ltb_ge in E2.
    destruct Hsel as [[Hnil _]|Hr]; [rewrite Hnil in E; simpl in E; lia|lia]. }
  destruct (String.eqb key "enter").
  { destruct (_ && _); [destruct (nth_error _ _)|]; simpl; auto. }
  destruct (String.eqb key "ctrl+d"); [simpl; auto|].
  destruct (negb _); simpl; [|auto].
  match goal with
  | |- context [filterRepositories lower ?m1] =>
    destruct (filterRepositories_incl lower m1) as [Hi Hr]; simpl in Hi, Hr
  end.
  split; [|auto].
  match goal with
  | |- selection_in_range (set_selection 0 ?m2) =>
    unfold selection_in_range;
      change (rs_filteredRepos (set_selection 0 m2)) with (rs_filteredRepos m2);
      change (rs_selectedIndex (set_selection 0 m2)) with 0;
      destruct (rs_filteredRepos m2) as [|x l]; [left; auto|right; simpl; lia]
  end.
Qed.

Lemma selection_stays_in_range_witness :
  selection_in_range
    (fst (RepositorySelector_key ascii_ToLower (fun ti _ => ti)
            (set_selection 1 (NewRepositorySelectorModel [repo_a; repo_b] demo_project
                                demo_item)) "down"))
  /\ rs_selectedIndex
       (fst (RepositorySelector_key ascii_ToLower (fun ti _ => ti)
               (set_selection 1 (NewRepositorySelectorModel [repo_a; repo_b] demo_project
                                   demo_item)) "down")) = 0.
Proof.
  split; [|reflexivity].
  apply (selection_stays_in_range ascii_ToLower (fun ti _ => ti)
           (set_selection 1 (NewRepositorySelectorModel [repo_a; repo_b] demo_project
                               demo_item)) "down").
  - right. simpl. lia.
  - apply incl_refl.
Defined.

(** X28. With a valid selection and a filtered list that is not empty,
    "enter" requests the conversion into the repository under the
    selection, which is one of the listed repositories, for the project
    and item of the selector; on an empty list it does nothing. *)
Theorem enter_converts_selected_repository (lower : string -> string)
    (input_Update : TextInput -> string -> TextInput) (m : RepositorySelectorModel) :
  selection_in_range m ->
  incl (rs_filteredRepos m) (rs_repos m) ->
  match rs_filteredRepos m with
  | [] => RepositorySelector_key lower input_Update m "enter" = (m, SelNone)
  | _ :: _ =>
    exists repo,
      nth_error (rs_filteredRepos m) (Z.to_nat (rs_selectedIndex m)) = Some repo
      /\ In repo (rs_repos m)
      /\ RepositorySelector_key lower input_Update m "enter"
         = (m, SelConvertDraft (mkConvertDraftMsg (rs_project m) (rs_item m) repo
                                  (rs_saveAsDefault m)))
  end.
Proof.
  intros Hsel Hincl. unfold RepositorySelector_key. simpl.
  destruct (rs_filteredRepos m) as [|x l] eqn:El; [reflexivity|].
  unfold selection_in_range in Hsel. rewrite El in Hsel.
  destruct Hsel as [[Hnil _]|Hr]; [discriminate Hnil|].
  destruct (nth_error (x :: l) (Z.to_nat (rs_selectedIndex m))) as [repo|] eqn:En.
  2:{ apply nth_error_None in En. lia. }
  exists repo. split; [reflexivity|]. split.
  - apply Hincl. eapply nth_error_In. exact En.
  - replace (0 <? Z.of_nat (length (x :: l))) with true
      by (symmetry; apply Z.ltb_lt; simpl; lia).
    replace (rs_selectedIndex m >=? 0) with true
      by (symmetry; rewrite Z.geb_leb; apply Z.leb_le; lia).
    replace (rs_selectedIndex m <? Z.of_nat (length (x :: l))) with true
      by (symmetry; apply Z.ltb_lt; lia).
    reflexivity.
Qed.

Lemma enter_converts_selected_repository_witness :
  RepositorySelector_key ascii_ToLower (fun ti _ => ti)
    (set_selection 1 (NewRepositorySelectorModel [repo_a; repo_b] demo_project demo_item))
    "enter"
  = (set_selection 1 (NewRepositorySelectorModel [repo_a; repo_b] demo_project demo_item),
     SelConvertDraft (mkConvertDraftMsg demo_project demo_item repo_b false)).
Proof.
  destruct (enter_converts_selected_repository ascii_ToLower (fun ti _ => ti)
              (set_selection 1 (NewRepositorySelectorModel [repo_a; repo_b] demo_project
                                  demo_item)))
    as (repo & Hnth & _ & Hkey).
  - right. simpl. lia.
  - apply incl_refl.
  - rewrite Hkey. injection Hnth as <-. reflexivity.
Defined.

(** ** The save commands *)

(** X29. The two save commands go the same way on the same input and the
    same answers of the API, with one difference: where [saveItem] reports
    a partial success (draft created, assignment failed), [saveAndConvert]
    reports an error and the conversion does not start. *)
Theorem save_commands_compared {X : Externals} (client : Remote)
    (msg : SaveAndConvertMsg) :
  match run_saveItem client (as_save msg), run_saveAndConvert client msg with
  | Returned MsgItemSaved, Returned (PrepReady project _) => project = sc_Project msg
  | Returned (MsgPartialSuccess _), Returned (PrepError (Some _)) => True
  | Returned (MsgError (Some _)), Returned (PrepError (Some _)) => True
  | Panicked, Panicked => True
  | _, _ => False
  end.
Proof.
  unfold run_saveItem, run_saveAndConvert, create_new, update_existing, as_save. simpl.
  repeat match goal with
         | |- context [match GetUserNodeID ?c ?a with _ => _ end] =>
           destruct (GetUserNodeID c a)
         | |- context [match CreateDraftIssue ?c ?a with _ => _ end] =>
           destruct (CreateDraftIssue c a)
         | |- context [match UpdateDraftIssue ?c ?a ?b ?d ?e with _ => _ end] =>
           destruct (UpdateDraftIssue c a b d e)
         | |- context [match sc_Item msg with _ => _ end] => destruct (sc_Item msg)
         | |- context [if ?c then _ else _] => destruct c
         | |- context [match ?e with PlainError _ _ => _ | ApiError _ => _ end] =>
           destruct e
         end; simpl; trivial.
Qed.

(** X30. [saveItem] reports the item as saved only when every call it
    made on the API succeeded: the lookup of the assignee, if one is
    named; for a new item the creation and, with an assignee, the update
    of the created draft; for an existing item the update, addressed by
    the content id or, when that is empty, by the item id. *)
Theorem item_saved_means_calls_succeeded {X : Externals} (client : Remote)
    (msg : SaveItemMsg) :
  run_saveItem client msg = Returned MsgItemSaved ->
  exists ids,
    (if String.eqb (si_Assignee msg) "" then ids = []
     else exists nodeID, GetUserNodeID client (si_Assignee msg) = Ok nodeID
                         /\ ids = [nodeID])
    /\ if si_IsNewItem msg then
         exists item,
           CreateDraftIssue client
             (mkCreateItemInput (Project_ID (si_Project msg)) "" (si_Title msg)
                (si_Body msg)) = Ok item
           /\ (ids <> [] ->
               exists updated,
                 UpdateDraftIssue client (Item_ContentID item) (si_Title msg)
                   (si_Body msg) ids = Ok updated)
       else
         exists item updated,
           si_Item msg = Some item
           /\ UpdateDraftIssue client
                (if String.eqb (Item_ContentID item) "" then Item_ID item
                 else Item_ContentID item)
                (si_Title msg) (si_Body msg) ids = Ok updated.
Proof.
  unfold run_saveItem, create_new, update_existing.
  destruct (String.eqb (si_Assignee msg) "") eqn:Ea; simpl.
  - intros H. exists []. split; [reflexivity|].
    destruct (si_IsNewItem msg).
    + destruct (CreateDraftIssue _ _) as [item|]; [|discriminate].
      exists item. split; [reflexivity|]. intros Hne. now contradiction Hne.
    + destruct (si_Item msg) as [item|]; [|discriminate].
      destruct (UpdateDraftIssue _ _ _ _ _) as [updated|] eqn:Eu; [|discriminate].
      exists item, updated. split; [reflexivity|exact Eu].
  - destruct (GetUserNodeID _ _) as [nodeID|] eqn:Eg; [|discriminate].
    intros H. exists [nodeID]. split; [eauto|].
    destruct (si_IsNewItem msg).
    + destruct (CreateDraftIssue _ _) as [item|]; [|discriminate].
      exists item. split; [reflexivity|]. intros _. simpl in H.
      destruct (UpdateDraftIssue _ _ _ _ _) as [updated|e] eqn:Eu; [eauto|].
      destruct e; discriminate.
    + destruct (si_Item msg) as [item|]; [|discriminate].
      destruct (UpdateDraftIssue _ _ _ _ _) as [updated|] eqn:Eu; [|discriminate].
      exists item, updated. split; [reflexivity|exact Eu].
Qed.

Lemma item_saved_means_calls_succeeded_witness :
  run_saveItem demo_remote (mkSaveItemMsg demo_project None "Fix login" "" "octo" true)
  = Returned MsgItemSaved
  /\ exists updated,
       UpdateDraftIssue demo_remote "DI_1" "Fix login" "" ["U_octo"] = Ok updated.
Proof.
  split; [reflexivity|].
  destruct (item_saved_means_calls_succeeded demo_remote
              (mkSaveItemMsg demo_project None "Fix login" "" "octo" true) eq_refl)
    as (ids & Hids & item & Hcreate & Hupdate).
  simpl in Hids. destruct Hids as (nodeID & Hnode & ->).
  injection Hnode as <-. injection Hcreate as <-.
  apply Hupdate. discriminate.
Defined.
